(** * Grouped seasonal decomposition: [streamlit_app.py]

    A shallow embedding of the class [TimeSeriesAnalysis] of
    [streamlit_app.py] (constructor, [decompose_series],
    [plot_decomposition]) and of the button handler that drives it,
    together with the properties of the grouped decomposition engine.

    The class is written against two libraries, pandas and statsmodels.
    What the class relies on is modelled here as follows.

    - A [DataFrame] is a list of rows, each with an index label and one
      cell per column.  Mutable frames live in a store ([list DataFrame],
      a location is a position in it), because [decompose_series] copies a
      frame and then drops rows from the copy in place.
    - [DataFrame.groupby(col)] with pandas' defaults ([sort=True],
      [dropna=True]): [col] names a column or the index (a name that is
      both is ambiguous, [ValueError]; a name that is neither raises
      [KeyError]); there is one group per distinct non-missing key (a
      number, an infinity, text, or a timestamp of the index), in ascending
      key order.
    - [statsmodels.tsa.seasonal.seasonal_decompose(x, model='additive',
      period=p)] raises [ValueError] when [x] holds a value that is not a
      finite number, and when [x] has fewer than [2 * p] observations.  The
      numbers it computes (floating point) and what it does with a period
      that is not positive are left to the interface [Libraries]. *)

From Stdlib Require Import ZArith String Ascii.
From Stdlib Require QArith.QArith_base QArith.Qcanon.
From stdpp Require Import base option numbers countable list sorting strings gmap.

Local Open Scope Z_scope.

(** ** Cells, labels, series and frames *)

(** A cell of a frame.  [NaN] is pandas' missing value; a float64 cell is
    [NaN], an infinity or a finite number (a rational here); a cell of an
    object column is text (text that does not read as a number). *)
Inductive Cell : Type :=
  | NaN
  | Inf (negative : bool)
  | Num (q : QArith_base.Q)
  | Str (s : string).

(** An index label: a timestamp (or the missing timestamp [NaT]) or text. *)
Inductive Label : Type :=
  | Timestamp (t : Z)
  | NaT
  | Text (s : string).

(** [ix_datetime] tells whether the index is a [pd.DatetimeIndex]. *)
Record Index : Type := mkIndex {
  ix_datetime : bool;
  ix_labels : list Label
}.

Record Series : Type := mkSeries {
  s_index : Index;
  s_values : list Cell
}.

Record Row : Type := mkRow {
  r_label : Label;
  r_cells : gmap string Cell
}.

(** A frame: the kind of its index ([df_datetime] for a
    [pd.DatetimeIndex]), the name of the index ([None] when it has none),
    the columns and the rows. *)
Record DataFrame : Type := mkDataFrame {
  df_datetime : bool;
  df_index_name : option string;
  df_columns : list string;
  df_rows : list Row
}.

(** The value of row [r] in column [c]. *)
Definition cell (r : Row) (c : string) : Cell := default NaN (r_cells r !! c).

(** [pd.isna] on one cell. *)
Definition isna (c : Cell) : bool :=
  match c with NaN => true | _ => false end.

(** ** Group keys *)

(** What can be the key of a group: a non-missing value of the grouping
    column (an infinity, a finite number, text) or, when the frame is
    grouped by its index, a label of the index (a timestamp, text).  Equal
    numbers are one key, whatever their spelling: the number of a key is a
    rational in lowest terms. *)
Inductive Key : Type :=
  | KInf (negative : bool)
  | KNum (q : Qcanon.Qc)
  | KTime (t : Z)
  | KStr (s : string).

Coercion KStr : string >-> Key.

Global Instance Key_eq_dec : EqDecision Key.
Proof. solve_decision. Defined.

Global Instance Key_countable : Countable Key.
Proof.
  refine (inj_countable'
    (λ k, match k with
          | KInf b => inl (inl b)
          | KNum q => inl (inr q)
          | KTime t => inr (inl t)
          | KStr s => inr (inr s)
          end)
    (λ x, match x with
          | inl (inl b) => KInf b
          | inl (inr q) => KNum q
          | inr (inl t) => KTime t
          | inr (inr s) => KStr s
          end) _).
  by intros [].
Defined.

(** ** Exceptions *)

(** The exceptions of Python that occur.  [InvalidReference] is not one of
    them: it is what reading the store at a location without a frame gives
    here, which a Python reference never does. *)

Inductive Exn : Type :=
  | KeyError (key : Key)
  | ValueError
  | ZeroDivisionError
  | InvalidReference.

Inductive Result (A : Type) : Type :=
  | Ok (a : A)
  | Raise (e : Exn).
Arguments Ok {A} a.
Arguments Raise {A} e.

Definition is_ok {A} (r : Result A) : bool :=
  match r with Ok _ => true | Raise _ => false end.

(** ** Order of group keys *)

(** The order in which pandas sorts the keys of the groups: numbers by
    value, with the infinities at the two ends; timestamps by time; text
    as Python compares [str], lexicographically by character code.  In a
    column or index that mixes text with other keys, the text comes
    last.  (Numbers and timestamps do not meet: numbers are cells,
    timestamps are labels.) *)
Definition key_le (a b : Key) : Prop :=
  match a, b with
  | KInf true, (KInf _ | KNum _) => True
  | KInf false, KInf negative => negative = false
  | KInf false, KNum _ => False
  | KNum _, KInf negative => negative = false
  | KNum x, KNum y => Qcanon.Qcle x y
  | (KInf _ | KNum _), (KTime _ | KStr _) => True
  | KTime _, (KInf _ | KNum _) => False
  | KTime s, KTime t => s ≤ t
  | KTime _, KStr _ => True
  | KStr _, (KInf _ | KNum _ | KTime _) => False
  | KStr s, KStr t => String.leb s t = true
  end.

Global Instance key_le_dec : RelDecision key_le.
Proof.
  intros [[]|x|s|s] [[]|y|t|t]; unfold key_le; apply _.
Defined.

(** ** pandas *)

(** The group key of a cell of the grouping column; a missing key gives no
    group ([dropna=True]). *)
Definition key_of (c : Cell) : option Key :=
  match c with
  | NaN => None
  | Inf negative => Some (KInf negative)
  | Num q => Some (KNum (Qcanon.Q2Qc q))
  | Str s => Some (KStr s)
  end.

(** The group key of a label of the index; [NaT] is missing. *)
Definition key_of_label (l : Label) : option Key :=
  match l with
  | Timestamp t => Some (KTime t)
  | NaT => None
  | Text s => Some (KStr s)
  end.

(** What the name given to [groupby] stands for. *)
Inductive Grouper : Type :=
  | by_column
  | by_index.

(** [groupby] resolves the name: a column, or the name of the index.  A
    name that is both is ambiguous, and pandas raises [ValueError]; a name
    that is neither raises [KeyError]. *)
Definition grouper (d : DataFrame) (col : string) : Result Grouper :=
  if decide (col ∈ df_columns d) then
    if decide (df_index_name d = Some col) then Raise ValueError else Ok by_column
  else
    if decide (df_index_name d = Some col) then Ok by_index
    else Raise (KeyError col).

(** The frame can be grouped by [col]. *)
Definition groupable (d : DataFrame) (col : string) : Prop :=
  is_ok (grouper d col) = true.

Global Instance groupable_dec (d : DataFrame) (col : string) :
  Decision (groupable d col).
Proof. unfold groupable. apply _. Defined.

(** The key of a row of [d] when [d] is grouped by [col]. *)
Definition row_key (d : DataFrame) (col : string) (r : Row) : option Key :=
  match grouper d col with
  | Ok by_column => key_of (cell r col)
  | Ok by_index => key_of_label (r_label r)
  | Raise _ => None
  end.

(** [pd.unique]: the distinct values in order of first appearance. *)
Fixpoint unique (l : list Key) : list Key :=
  match l with
  | [] => []
  | x :: l' => x :: filter (λ y, y ≠ x) (unique l')
  end.

(** The group values of the frame in order of first appearance. *)
Definition first_seen (d : DataFrame) (col : string) : list Key :=
  unique (omap (row_key d col) (df_rows d)).

(** The keys of [d.groupby(col)] in iteration order: sorted. *)
Definition group_keys (d : DataFrame) (col : string) : list Key :=
  merge_sort key_le (first_seen d col).

(** The rows of one group, in the order of the frame. *)
Definition group_rows (d : DataFrame) (col : string) (k : Key) : list Row :=
  filter (λ r, row_key d col r = Some k) (df_rows d).

Definition group_frame (d : DataFrame) (col : string) (k : Key) : DataFrame :=
  {| df_datetime := df_datetime d;
     df_index_name := df_index_name d;
     df_columns := df_columns d;
     df_rows := group_rows d col k |}.

(** [d.groupby(col)], as the list of pairs its iteration yields. *)
Definition groupby (d : DataFrame) (col : string)
  : Result (list (Key * DataFrame)) :=
  match grouper d col with
  | Ok _ => Ok ((λ k, (k, group_frame d col k)) <$> group_keys d col)
  | Raise e => Raise e
  end.

(** [d[[col]]]: a new frame with the one column. *)
Definition getitem_columns (d : DataFrame) (col : string) : Result DataFrame :=
  if decide (col ∈ df_columns d)
  then Ok {| df_datetime := df_datetime d;
             df_index_name := df_index_name d;
             df_columns := [col];
             df_rows := (λ r, {| r_label := r_label r;
                                 r_cells := {[ col := cell r col ]} |})
                        <$> df_rows d |}
  else Raise (KeyError col).

(** [d.dropna()]: the rows without a missing cell. *)
Definition complete_row (cols : list string) (r : Row) : bool :=
  forallb (λ c, negb (isna (cell r c))) cols.

Definition dropna (d : DataFrame) : DataFrame :=
  {| df_datetime := df_datetime d;
     df_index_name := df_index_name d;
     df_columns := df_columns d;
     df_rows := filter (λ r, complete_row (df_columns d) r = true) (df_rows d) |}.

Definition frame_index (d : DataFrame) : Index :=
  {| ix_datetime := df_datetime d; ix_labels := r_label <$> df_rows d |}.

(** [d[col]]: the column as a series. *)
Definition getitem (d : DataFrame) (col : string) : Result Series :=
  if decide (col ∈ df_columns d)
  then Ok {| s_index := frame_index d;
             s_values := (λ r, cell r col) <$> df_rows d |}
  else Raise (KeyError col).

(** ** statsmodels *)

(** [statsmodels.tsa.seasonal.DecomposeResult]: four series. *)
Record DecomposeResult : Type := mkDecomposeResult {
  observed : Series;
  trend : Series;
  seasonal : Series;
  resid : Series
}.

(** What the class takes from its libraries without fixing it here: the
    floating-point results of the additive decomposition (trend, seasonal
    and residual values for given finite observations and period), what
    [seasonal_decompose] does when the period is not positive, and how
    [pd.to_datetime(..., format="%Y-%m", errors="coerce")] reads one text
    label ([None] when it does not parse). *)
Class Libraries : Type := {
  sm_trend : list QArith_base.Q → Z → list Cell;
  sm_seasonal : list QArith_base.Q → Z → list Cell;
  sm_resid : list QArith_base.Q → Z → list Cell;
  sm_nonpositive : Series → Z → Result DecomposeResult;
  strptime_ym : string → option Z
}.

(** The finite number in a cell, if it is one. *)
Definition finite (c : Cell) : option QArith_base.Q :=
  match c with Num q => Some q | _ => None end.

Definition nobs (x : Series) : Z := Z.of_nat (length (s_values x)).

Section WithLibraries.
Context {lib : Libraries}.

(** [seasonal_decompose(x, model='additive', period=period)].  The checks
    come first and in this order: every value finite, then at least two
    complete cycles.  The results carry the index of [x]. *)
Definition seasonal_decompose (x : Series) (period : Z) : Result DecomposeResult :=
  match mapM finite (s_values x) with
  | None => Raise ValueError
  | Some xs =>
      if nobs x <? 2 * period then Raise ValueError
      else if period <=? 0 then sm_nonpositive x period
      else Ok {| observed := x;
                 trend := {| s_index := s_index x; s_values := sm_trend xs period |};
                 seasonal := {| s_index := s_index x; s_values := sm_seasonal xs period |};
                 resid := {| s_index := s_index x; s_values := sm_resid xs period |} |}
  end.

(** [pd.to_datetime(index, format="%Y-%m", errors="coerce")]. *)
Definition to_datetime_label (l : Label) : Label :=
  match l with
  | Text s => match strptime_ym s with Some t => Timestamp t | None => NaT end
  | _ => l
  end.

Definition to_datetime (ix : Index) : Index :=
  {| ix_datetime := true; ix_labels := to_datetime_label <$> ix_labels ix |}.

(** ** The class [TimeSeriesAnalysis] *)

(** The fields of an instance.  [df] is a reference to the caller's frame
    (a location of the store); [results] is the dict of decompositions and
    [successful_groups] the list of keys. *)
Record TimeSeriesAnalysis : Type := mkTimeSeriesAnalysis {
  df : nat;
  groupby_col : string;
  value_col : string;
  period : Z;
  results : gmap Key DecomposeResult;
  successful_groups : list Key
}.

(** [__init__]. *)
Definition init (df : nat) (groupby_col value_col : string) (period : Z)
  : TimeSeriesAnalysis :=
  {| df := df; groupby_col := groupby_col; value_col := value_col;
     period := period; results := ∅; successful_groups := [] |}.

(** The state a method runs in: the store of frames and the instance. *)
Record State : Type := mkState {
  frames : list DataFrame;
  self : TimeSeriesAnalysis
}.

(** A method either returns or raises, and in both cases leaves a state. *)
Definition M (A : Type) : Type := State → Result A * State.

Global Instance M_ret : MRet M := λ A a s, (Ok a, s).
Global Instance M_bind : MBind M := λ A B f m s,
  match m s with
  | (Ok a, s') => f a s'
  | (Raise e, s') => (Raise e, s')
  end.

Definition lift {A} (r : Result A) : M A := λ s, (r, s).

Definition get_self : M TimeSeriesAnalysis := λ s, (Ok (self s), s).

Definition load (l : nat) : M DataFrame := λ s,
  match frames s !! l with
  | Some d => (Ok d, s)
  | None => (Raise InvalidReference, s)
  end.

(** A new frame object ([.copy()]): stored at a fresh location. *)
Definition alloc (d : DataFrame) : M nat := λ s,
  (Ok (length (frames s)), {| frames := frames s ++ [d]; self := self s |}).

(** An in-place update of the frame at [l]. *)
Definition modify_frame (l : nat) (f : DataFrame → DataFrame) : M unit := λ s,
  (Ok tt, {| frames := alter f l (frames s); self := self s |}).

(** [self.results[group] = decomposition]. *)
Definition set_result (group : Key) (decomposition : DecomposeResult) : M unit :=
  λ s, let a := self s in
  (Ok tt, {| frames := frames s;
             self := {| df := df a; groupby_col := groupby_col a;
                        value_col := value_col a; period := period a;
                        results := <[group := decomposition]> (results a);
                        successful_groups := successful_groups a |} |}).

(** [self.successful_groups.append(group)]. *)
Definition append_successful (group : Key) : M unit :=
  λ s, let a := self s in
  (Ok tt, {| frames := frames s;
             self := {| df := df a; groupby_col := groupby_col a;
                        value_col := value_col a; period := period a;
                        results := results a;
                        successful_groups := successful_groups a ++ [group] |} |}).

(** [try: m except ValueError: pass]. *)
Definition except_ValueError (m : M unit) : M unit := λ s,
  match m s with
  | (Raise ValueError, s') => (Ok tt, s')
  | r => r
  end.

Fixpoint for_each {A} (l : list A) (body : A → M unit) : M unit :=
  match l with
  | [] => mret tt
  | x :: l' => body x ;; for_each l' body
  end.

(** The body of the loop of [decompose_series] for one pair
    [(group, data)] of the iteration. *)
Definition decompose_group (g : Key * DataFrame) : M unit :=
  a ← get_self;
  selected ← lift (getitem_columns (g.2) (value_col a));
  data ← alloc selected;
  modify_frame data dropna;;
  except_ValueError (
    a ← get_self;
    d ← load data;
    x ← lift (getitem d (value_col a));
    decomposition ← lift (seasonal_decompose x (period a));
    set_result (g.1) decomposition;;
    append_successful (g.1)).

(** [decompose_series]. *)
Definition decompose_series : M unit :=
  a ← get_self;
  d ← load (df a);
  grouped ← lift (groupby d (groupby_col a));
  for_each grouped decompose_group.

(** [plot_decomposition] gives every part of the decomposition a
    [DatetimeIndex]: a series whose index is not one gets its index
    replaced, in place. *)
Definition ensure_datetime_index (series : Series) : Series :=
  if ix_datetime (s_index series) then series
  else {| s_index := to_datetime (s_index series); s_values := s_values series |}.

(** The loop over the four parts, ["observed"], ["trend"], ["seasonal"],
    ["resid"], of the stored decomposition. *)
Definition ensure_datetime_indexes (decomposition : DecomposeResult)
  : DecomposeResult :=
  {| observed := ensure_datetime_index (observed decomposition);
     trend := ensure_datetime_index (trend decomposition);
     seasonal := ensure_datetime_index (seasonal decomposition);
     resid := ensure_datetime_index (resid decomposition) |}.

(** One [go.Scatter] trace and the subplot row it is added to. *)
Record Scatter : Type := mkScatter {
  sc_row : Z;
  sc_name : string;
  sc_x : list Label;
  sc_y : list Cell
}.

Definition scatter (row : Z) (name : string) (series : Series) : Scatter :=
  {| sc_row := row; sc_name := name;
     sc_x := ix_labels (s_index series); sc_y := s_values series |}.

(** The figure: the four traces in the order they are added. *)
Definition figure (decomposition : DecomposeResult) : list Scatter :=
  [ scatter 1 "Original" (observed decomposition);
    scatter 2 "Tendência" (trend decomposition);
    scatter 3 "Sazonalidade" (seasonal decomposition);
    scatter 4 "Ruído" (resid decomposition) ].

(** What a call of [plot_decomposition] shows: [st.warning] for a group
    without a decomposition, [st.plotly_chart] otherwise. *)
Inductive Shown : Type :=
  | warning (group : Key)
  | plotly_chart (fig : list Scatter).

(** [plot_decomposition]. *)
Definition plot_decomposition (group : Key) : M Shown :=
  a ← get_self;
  match results a !! group with
  | None => mret (warning group)
  | Some decomposition =>
      let decomposition := ensure_datetime_indexes decomposition in
      set_result group decomposition;;
      mret (plotly_chart (figure decomposition))
  end.

(** ** The session *)

(** [st.session_state] with its two entries, and the store of frames.  The
    entry ["analysis"] holds the instance itself, so what a method does to
    the instance is seen through the session. *)
Record Session : Type := mkSession {
  ss_frames : list DataFrame;
  ss_analysis : option TimeSeriesAnalysis;
  ss_successful_groups : option (list Key)
}.

(** The handler of the button that runs the analysis, for the frame at
    [table]: a new instance (with the default period 12) replaces the entry
    ["analysis"], [decompose_series] runs on it, and its list of groups is
    stored.  When [decompose_series] raises, the script stops before the
    last assignment. *)
Definition execute_analysis (table : nat) (groupby_col value_col : string)
    (ss : Session) : Result unit * Session :=
  let analysis := init table groupby_col value_col 12 in
  match decompose_series {| frames := ss_frames ss; self := analysis |} with
  | (Ok _, s) =>
      (Ok tt, {| ss_frames := frames s;
                 ss_analysis := Some (self s);
                 ss_successful_groups := Some (successful_groups (self s)) |})
  | (Raise e, s) =>
      (Raise e, {| ss_frames := frames s;
                   ss_analysis := Some (self s);
                   ss_successful_groups := ss_successful_groups ss |})
  end.

(** The operation [decompose] of the engine: a new instance for the four
    inputs, then [decompose_series]. *)
Definition decompose (store : list DataFrame) (table : nat)
    (groupby_col value_col : string) (period : Z) : Result unit * State :=
  decompose_series {| frames := store;
                      self := init table groupby_col value_col period |}.

End WithLibraries.

(** ** What the loop computes *)

(** The rows of a frame whose cell in column [v] is not missing. *)
Definition clean_rows (v : string) (rows : list Row) : list Row :=
  filter (λ r, isna (cell r v) = false) rows.

(** Column [v] of the rows of [data] whose cell in [v] is not missing. *)
Definition series_of (data : DataFrame) (v : string) : Series :=
  {| s_index := {| ix_datetime := df_datetime data;
                   ix_labels := r_label <$> clean_rows v (df_rows data) |};
     s_values := (λ r, cell r v) <$> clean_rows v (df_rows data) |}.

(** The non-missing observations of group [k]. *)
Definition group_series (d : DataFrame) (g v : string) (k : Key) : Series :=
  series_of (group_frame d g k) v.

(** The two assignments of a successful iteration. *)
Definition store (group : Key) (decomposition : DecomposeResult)
    (a : TimeSeriesAnalysis) : TimeSeriesAnalysis :=
  {| df := df a; groupby_col := groupby_col a; value_col := value_col a;
     period := period a;
     results := <[group := decomposition]> (results a);
     successful_groups := successful_groups a ++ [group] |}.

Definition store_all (rs : list (Key * DecomposeResult))
    (a : TimeSeriesAnalysis) : TimeSeriesAnalysis :=
  foldl (λ a kr, store kr.1 kr.2 a) a rs.

(** Given the outcome of [seasonal_decompose] for each group in iteration
    order: the decompositions the loop stores (those before the first
    exception that is not a [ValueError]), and how the loop ends. *)
Fixpoint recorded (outs : list (Key * Result DecomposeResult))
  : list (Key * DecomposeResult) :=
  match outs with
  | [] => []
  | (k, Ok r) :: outs' => (k, r) :: recorded outs'
  | (_, Raise ValueError) :: outs' => recorded outs'
  | (_, Raise _) :: _ => []
  end.

Fixpoint ending (outs : list (Key * Result DecomposeResult)) : Result unit :=
  match outs with
  | [] => Ok tt
  | (_, Ok _) :: outs' => ending outs'
  | (_, Raise ValueError) :: outs' => ending outs'
  | (_, Raise e) :: _ => Raise e
  end.

(** A series is too short for period [p]: fewer than two complete cycles. *)
Definition short (x : Series) (p : Z) : Prop := nobs x < 2 * p.

Global Instance short_dec (x : Series) (p : Z) : Decision (short x p).
Proof. unfold short. apply _. Defined.

(** Every observation of the series is a finite number. *)
Definition all_finite (x : Series) : Prop :=
  Forall (λ c, is_Some (finite c)) (s_values x).

Global Instance all_finite_dec (x : Series) : Decision (all_finite x).
Proof. unfold all_finite. apply _. Defined.

(** The series can be decomposed with period [p]. *)
Definition decomposable (x : Series) (p : Z) : Prop := ¬ short x p ∧ all_finite x.

Global Instance decomposable_dec (x : Series) (p : Z) : Decision (decomposable x p).
Proof. unfold decomposable. apply _. Defined.

(** The list of outcomes for the keys [ks], when [f] is the outcome of the
    call for a key. *)
Definition outcomes_of (f : Key → Result DecomposeResult) (ks : list Key)
  : list (Key * Result DecomposeResult) :=
  (λ k, (k, f k)) <$> ks.

Section Outcomes.
Context {lib : Libraries}.

(** The outcome of [seasonal_decompose] for every group of [d]. *)
Definition outcomes (d : DataFrame) (g v : string) (p : Z)
  : list (Key * Result DecomposeResult) :=
  outcomes_of (λ k, seasonal_decompose (group_series d g v k) p) (group_keys d g).

(** The instance [decompose_series] leaves and how it ends, for the table
    [d] behind the reference [df a]. *)
Definition analysed (d : DataFrame) (a : TimeSeriesAnalysis)
  : Result unit * TimeSeriesAnalysis :=
  match grouper d (groupby_col a) with
  | Ok _ =>
      if decide (value_col a ∈ df_columns d) then
        let outs := outcomes d (groupby_col a) (value_col a) (period a) in
        (ending outs, store_all (recorded outs) a)
      else
        match group_keys d (groupby_col a) with
        | [] => (Ok tt, a)
        | _ :: _ => (Raise (KeyError (value_col a)), a)
        end
  | Raise e => (Raise e, a)
  end.

End Outcomes.

(** ** The properties in the words of the specification *)

Section Specified.
Context {lib : Libraries}.

(** Completeness under failure isolation: with [N] groups of which [K] have
    fewer than [2 * p] non-missing observations, the list of successful
    groups has [N - K] entries, each a group with at least [2 * p]
    non-missing observations. *)
Definition completeness_as_specified (store : list DataFrame) (table : nat)
    (d : DataFrame) (g v : string) (p : Z) : Prop :=
  let a := self (decompose store table g v p).2 in
  let keys := group_keys d g in
  length (successful_groups a) =
    (length keys - length (filter (λ k, short (group_series d g v k) p) keys))%nat ∧
  ∀ k, k ∈ successful_groups a → k ∈ keys ∧ ¬ short (group_series d g v k) p.

(** Order preservation: the successful groups come in the order in which
    the group values first appear in the table. *)
Definition first_seen_order_as_specified (store : list DataFrame) (table : nat)
    (d : DataFrame) (g v : string) (p : Z) : Prop :=
  successful_groups (self (decompose store table g v p).2)
    `sublist_of` first_seen d g.

(** Invalid input: the call ends in an exception and stores nothing. *)
Definition rejected (store : list DataFrame) (table : nat)
    (g v : string) (p : Z) : Prop :=
  ∃ e, (decompose store table g v p).1 = Raise e.

(** The four parts of a decomposition, in the order of the charts. *)
Definition parts : list (DecomposeResult → Series) :=
  [observed; trend; seasonal; resid].

(** Every part has a [DatetimeIndex]. *)
Definition datetime_indexed (r : DecomposeResult) : Prop :=
  Forall (λ part : DecomposeResult → Series, ix_datetime (s_index (part r)) = true)
         parts.

(** The presentation step leaves the state as it found it. *)
Definition plot_pure_as_specified (group : Key) (s : State) : Prop :=
  (plot_decomposition group s).2 = s.

(** The states of an instance: a new instance, and what the methods and
    the rest of the program (which may change the store) make of it. *)
Inductive reachable : State → Prop :=
  | reach_init store table g v p :
      reachable {| frames := store; self := init table g v p |}
  | reach_decompose_series s :
      reachable s → reachable (decompose_series s).2
  | reach_plot_decomposition s group :
      reachable s → reachable (plot_decomposition group s).2
  | reach_store s store :
      reachable s → reachable {| frames := store; self := self s |}.

End Specified.

(** The dict and the list name the same groups. *)
Definition consistent (a : TimeSeriesAnalysis) : Prop :=
  ∀ k, k ∈ successful_groups a ↔ is_Some (results a !! k).

(** ** A concrete instance and concrete tables *)

(** An instance of [Libraries] to run the model on concrete tables: the
    series has no seasonality (seasonal part 0, trend equal to the
    observation, residual 0), a period that is not positive raises
    [ZeroDivisionError], and no text label parses as a month. *)
Definition plain_libraries : Libraries :=
  {| sm_trend := λ xs _, Num <$> xs;
     sm_seasonal := λ xs _, (λ _, Num (QArith_base.Qmake 0 1)) <$> xs;
     sm_resid := λ xs _, (λ _, Num (QArith_base.Qmake 0 1)) <$> xs;
     sm_nonpositive := λ _ _, Raise ZeroDivisionError;
     strptime_ym := λ _, None |}.

(** A row of a table with the grouping column ["UF"] and the value column
    ["QTD_ADESAO"], at month [t]. *)
Definition uf_row (t : Z) (uf : string) (value : Cell) : Row :=
  {| r_label := Timestamp t;
     r_cells := {[ "UF" := Str uf; "QTD_ADESAO" := value ]} |}.

(** A table indexed by months, as [load_data] makes it. *)
Definition uf_table (rows : list Row) : DataFrame :=
  {| df_datetime := true; df_index_name := Some "ANO_MES";
     df_columns := ["UF"; "QTD_ADESAO"]; df_rows := rows |}.

Definition count (z : Z) : Cell := Num (QArith_base.Qmake z 1).

(** [n] monthly rows of group [uf], months [t], [t+1], ..., with the cell
    [value t] at month [t]. *)
Fixpoint monthly (uf : string) (value : Z → Cell) (t : Z) (n : nat) : list Row :=
  match n with
  | O => []
  | S n' => uf_row t uf (value t) :: monthly uf value (t + 1) n'
  end.

(** Two groups of two months each; ["RJ"] has an infinite value. *)
Definition inf_table : DataFrame :=
  uf_table [ uf_row 0 "SP" (count 1); uf_row 0 "RJ" (count 2);
             uf_row 1 "SP" (count 3); uf_row 1 "RJ" (Inf false) ].

(** Two groups of two months each, ["SP"] first. *)
Definition sp_rj_table : DataFrame :=
  uf_table [ uf_row 0 "SP" (count 1); uf_row 0 "RJ" (count 2);
             uf_row 1 "SP" (count 3); uf_row 1 "RJ" (count 4) ].

(** Group ["A"] with 36 months, the value of the seventh missing. *)
Definition gap_table : DataFrame :=
  uf_table (monthly "A" (λ t, if decide (t = 6) then NaN else count t) 0 36).

(** Group ["A"] with three months, the value of the second missing. *)
Definition gap_row_table : DataFrame :=
  uf_table [ uf_row 0 "A" (count 1); uf_row 1 "A" NaN; uf_row 2 "A" (count 3) ].

(** Two products with numeric codes, 2 first, of two months each. *)
Definition code_table : DataFrame :=
  {| df_datetime := true; df_index_name := Some "ANO_MES";
     df_columns := ["PRODUTO"; "QTD_ADESAO"];
     df_rows :=
       (λ '(t, code, value),
          {| r_label := Timestamp t;
             r_cells := {[ "PRODUTO" := count code; "QTD_ADESAO" := count value ]} |})
       <$> [ (0, 2, 10); (0, 1, 20); (1, 2, 30); (1, 1, 40) ] |}.

(** A table without rows and without the value column. *)
Definition no_value_table : DataFrame :=
  {| df_datetime := true; df_index_name := Some "ANO_MES";
     df_columns := ["UF"]; df_rows := [] |}.

(** A table whose index is text, not a [DatetimeIndex]. *)
Definition text_index_table : DataFrame :=
  {| df_datetime := false; df_index_name := None;
     df_columns := ["UF"; "QTD_ADESAO"];
     df_rows := [ {| r_label := Text "2020-01";
                     r_cells := {[ "UF" := Str "SP"; "QTD_ADESAO" := count 1 ]} |};
                  {| r_label := Text "2020-02";
                     r_cells := {[ "UF" := Str "SP"; "QTD_ADESAO" := count 2 ]} |} ] |}.

(** The state after the analysis of [gap_table] with period 12. *)
Definition gap_state : State :=
  (@decompose plain_libraries [gap_table] 0 "UF" "QTD_ADESAO" 12).2.

(** The state after the analysis of [text_index_table] with period 1. *)
Definition text_index_state : State :=
  (@decompose plain_libraries [text_index_table] 0 "UF" "QTD_ADESAO" 1).2.

(** ** What the analysis reads of a row *)

(** Two rows agree on what an analysis by [g] of the values [v] reads:
    the index label, the cell of the grouping column (when [g] is a
    column) and the cell of the value column. *)
Definition rows_agree (g v : string) (r1 r2 : Row) : Prop :=
  r_label r1 = r_label r2 ∧ cell r1 g = cell r2 g ∧ cell r1 v = cell r2 v.

(** [sp_rj_table] with one more column, ["AREA_AMPARADA_ADESAO"]. *)
Definition sp_rj_area_table : DataFrame :=
  {| df_datetime := true; df_index_name := Some "ANO_MES";
     df_columns := ["UF"; "QTD_ADESAO"; "AREA_AMPARADA_ADESAO"];
     df_rows := (λ r, {| r_label := r_label r;
                         r_cells := <["AREA_AMPARADA_ADESAO" := count 7]> (r_cells r) |})
                <$> df_rows sp_rj_table |}.

(** * Loading and the script *)

(** ** [load_data] *)

(** What [load_data] and the script show with [st.success], [st.error]
    and [st.warning]. *)
Inductive Message : Type :=
  | st_success (text : string)
  | st_error (text : string)
  | st_warning (text : string).

(** [LOCAL_PATHS]. *)
Definition LOCAL_PATHS : gmap string string :=
  list_to_map [ ("Produto", "df_produto_proagro.csv");
                ("Estado (UF)", "df_UF_proagro.csv") ].

(** How [pd.to_datetime(column, errors="coerce", infer_datetime_format=True)]
    reads one cell of a column (the format is inferred from the column):
    the timestamp, or [None] for what becomes [NaT]. *)
Class DateReader : Type := {
  read_datetime : list Cell → Cell → option Z
}.

Section Loading.
Context {dates : DateReader}.

(** The two statements
    [df[col] = pd.to_datetime(df[col], errors="coerce", ...)] and
    [df.set_index(col, inplace=True)]: the column, read as dates, becomes
    the index, a [DatetimeIndex] with the name of the column, and is no
    longer a column. *)
Definition set_datetime_index (col : string) (d : DataFrame) : DataFrame :=
  let column := (λ r, cell r col) <$> df_rows d in
  {| df_datetime := true;
     df_index_name := Some col;
     df_columns := filter (λ c, c ≠ col) (df_columns d);
     df_rows := (λ r, {| r_label := match read_datetime column (cell r col) with
                                    | Some t => Timestamp t
                                    | None => NaT
                                    end;
                         r_cells := delete col (r_cells r) |})
                <$> df_rows d |}.

(** [load_data].  The files are given by [files]: for a path that exists,
    the frame [pd.read_csv] makes of the file.  The result is what is
    shown and the frame returned ([None] for Python's [None]). *)
Definition load_data (files : gmap string DataFrame) (groupby_option : string)
  : Result (list Message * option DataFrame) :=
  match LOCAL_PATHS !! groupby_option with
  | None => Raise (KeyError groupby_option)
  | Some file_path =>
      match files !! file_path with
      | Some df =>
          let loading := st_success ("📂 Carregando dados de: " +:+ file_path) in
          if decide ("ANO_MES" ∈ df_columns df)
          then Ok ([loading], Some (set_datetime_index "ANO_MES" df))
          else Ok ([loading;
                    st_error "❌ A coluna 'ANO_MES' não foi encontrada no arquivo."],
                   None)
      | None =>
          Ok ([st_error ("❌ Arquivo " +:+ file_path +:+ " não encontrado.")], None)
      end
  end.

End Loading.

(** ** The dicts of the script *)

(** [col_mapping]. *)
Definition col_mapping_items : list (string * string) :=
  [ ("AREA_AMPARADA_ADESAO", "Área Amparada");
    ("AREA_AMPARADA_ComCOP", "Área Amparada Sinistrada");
    ("AREA_AMPARADA_ComCOP_DEFERIDA", "Área Amparada Sinistrada Deferida");
    ("QTD_ADESAO", "Número de Contratos de Adesão");
    ("QTD_ComCOP", "Número de Contratos Sinistrados");
    ("QTD_ComCOP_DEFERIDA", "Número de Contratos Sinistrados Deferidos");
    ("VL_AMPARADO_ComCOP_DEF", "Valor Amparado Sinistrado");
    ("VL_COBERTURA_ComCOP_DEFERIDA_DEF", "Valor de Cobertura Sinistrado Deferido");
    ("VL_ADICIONAL_ADESAO_DEF", "Valor Adicional") ].

Definition col_mapping : gmap string string := list_to_map col_mapping_items.

(** [uf_mapping]. *)
Definition uf_mapping_items : list (string * string) :=
  [ ("RO", "Rondônia"); ("AC", "Acre"); ("AM", "Amazonas"); ("RR", "Roraima");
    ("PA", "Pará"); ("AP", "Amapá"); ("TO", "Tocantins"); ("MA", "Maranhão");
    ("PI", "Piauí"); ("CE", "Ceará"); ("RN", "Rio Grande do Norte");
    ("PB", "Paraíba"); ("PE", "Pernambuco"); ("AL", "Alagoas"); ("SE", "Sergipe");
    ("BA", "Bahia"); ("MG", "Minas Gerais"); ("ES", "Espírito Santo");
    ("RJ", "Rio de Janeiro"); ("SP", "São Paulo"); ("PR", "Paraná");
    ("SC", "Santa Catarina"); ("RS", "Rio Grande do Sul");
    ("MS", "Mato Grosso do Sul"); ("MT", "Mato Grosso"); ("GO", "Goiás");
    ("DF", "Distrito Federal") ].

Definition uf_mapping : gmap string string := list_to_map uf_mapping_items.

(** [mapping.get(key, key)] for a column name: its display name, the name
    itself when the mapping has none. *)
Definition display (mapping : gmap string string) (key : string) : string :=
  default key (mapping !! key).

(** [mapping.get(key, key)] for a group key: the display name of a key
    that is text and has one, the key itself otherwise. *)
Definition display_key (mapping : gmap string string) (key : Key) : Key :=
  match key with
  | KStr s => KStr (display mapping s)
  | _ => key
  end.

(** What a [KeyError] reports for a key of a dict. *)
Class AsKey (K : Type) : Type := as_key : K → Key.
Global Instance string_as_key : AsKey string := KStr.
Global Instance Key_as_key : AsKey Key := id.

(** A Python dict, in insertion order. *)
Definition Dict (K V : Type) : Type := list (K * V).

Section Dicts.
Context {K V : Type} `{EqDecision K, AsKey K}.

(** [d[key] = value]: a key that is there keeps its place and gets the new
    value, a new key goes to the end. *)
Fixpoint dict_setitem (key : K) (value : V) (d : Dict K V) : Dict K V :=
  match d with
  | [] => [(key, value)]
  | (key', value') :: d' =>
      if decide (key = key') then (key, value) :: d'
      else (key', value') :: dict_setitem key value d'
  end.

(** [d[key]]. *)
Fixpoint dict_getitem (d : Dict K V) (key : K) : Result V :=
  match d with
  | [] => Raise (KeyError (as_key key))
  | (key', value) :: d' =>
      if decide (key = key') then Ok value else dict_getitem d' key
  end.

(** [list(d.keys())]. *)
Definition dict_keys (d : Dict K V) : list K := d.*1.

End Dicts.

(** The comprehension [{f(x): x for x in items}]. *)
Definition display_dict {K : Type} `{EqDecision K} (f : K → K) (items : list K)
  : Dict K K :=
  foldl (λ d x, dict_setitem (f x) x d) [] items.

(** [options = {col_mapping.get(col, col): col for col in numeric_columns}]. *)
Definition options (numeric_columns : list string) : Dict string string :=
  display_dict (display col_mapping) numeric_columns.

(** [uf_options = {uf_mapping.get(uf, uf): uf for uf in successful_groups}]. *)
Definition uf_options (successful_groups : list Key) : Dict Key Key :=
  display_dict (display_key uf_mapping) successful_groups.

(** [groupby_col = "PRODUTO" if groupby_option == "Produto" else "UF"]. *)
Definition groupby_col_of (groupby_option : string) : string :=
  if decide (groupby_option = "Produto") then "PRODUTO" else "UF".

(** ** Choosing and plotting a group *)

(** What the select box of the groups offers: the display names of the
    groups when grouping by state, the groups themselves otherwise. *)
Definition selectbox_options (groupby_option : string)
    (successful_groups : list Key) : list Key :=
  if decide (groupby_option = "Estado (UF)")
  then dict_keys (uf_options successful_groups)
  else successful_groups.

(** [selected_group], for the entry [selected] chosen in the select box. *)
Definition selected_group (groupby_option : string)
    (successful_groups : list Key) (selected : Key) : Result Key :=
  if decide (groupby_option = "Estado (UF)")
  then dict_getitem (uf_options successful_groups) selected
  else Ok selected.

(** What pressing the plot button shows. *)
Inductive Plotted : Type :=
  | shown (what : Shown)
  | no_analysis (message : Message).

Section Script.
Context {lib : Libraries}.

(** The handler of the plot button: [plot_decomposition] on the instance
    of the session, an error message when the session has none. *)
Definition plot_button (group : Key) (ss : Session) : Result Plotted * Session :=
  match ss_analysis ss with
  | Some analysis =>
      match plot_decomposition group {| frames := ss_frames ss; self := analysis |} with
      | (Ok what, s) =>
          (Ok (shown what),
           {| ss_frames := frames s; ss_analysis := Some (self s);
              ss_successful_groups := ss_successful_groups ss |})
      | (Raise e, s) =>
          (Raise e,
           {| ss_frames := frames s; ss_analysis := Some (self s);
              ss_successful_groups := ss_successful_groups ss |})
      end
  | None =>
      (Ok (no_analysis
             (st_error "❌ Erro: Nenhuma análise foi encontrada. Execute a análise primeiro.")),
       ss)
  end.

(** The part of the script under
    [if "successful_groups" in st.session_state and st.session_state["successful_groups"]]:
    with a list that is there and not empty, the group for the entry
    [selected] of the select box is looked up, and plotted when the button
    [pressed] is pressed. *)
Definition plot_section (groupby_option : string) (selected : Key) (pressed : bool)
    (ss : Session) : Result (option Plotted) * Session :=
  match ss_successful_groups ss with
  | Some (group :: groups) =>
      match selected_group groupby_option (group :: groups) selected with
      | Ok chosen =>
          if pressed
          then match plot_button chosen ss with
               | (Ok what, ss') => (Ok (Some what), ss')
               | (Raise e, ss') => (Raise e, ss')
               end
          else (Ok None, ss)
      | Raise e => (Raise e, ss)
      end
  | _ => (Ok None, ss)
  end.

(** The sessions of the script: an empty session, and what the two
    buttons make of a session (the frames are whatever the script loaded
    for the run). *)
Inductive session_reachable : Session → Prop :=
  | session_new store :
      session_reachable {| ss_frames := store; ss_analysis := None;
                           ss_successful_groups := None |}
  | session_execute ss table groupby_col value_col :
      session_reachable ss →
      session_reachable (execute_analysis table groupby_col value_col ss).2
  | session_plot ss groupby_option selected pressed :
      session_reachable ss →
      session_reachable (plot_section groupby_option selected pressed ss).2
  | session_frames ss store :
      session_reachable ss →
      session_reachable {| ss_frames := store; ss_analysis := ss_analysis ss;
                           ss_successful_groups := ss_successful_groups ss |}.

End Script.

(** ** A concrete reader and concrete files *)

(** An instance of [DateReader] to run the model: a whole number is read
    as that timestamp, anything else is not a date. *)
Definition plain_dates : DateReader :=
  {| read_datetime := λ _ c,
       match c with
       | Num q => if decide (QArith_base.Qden q = 1%positive)
                  then Some (QArith_base.Qnum q) else None
       | _ => None
       end |}.

(** A file of two months of one state, as [pd.read_csv] gives it. *)
Definition uf_file : DataFrame :=
  {| df_datetime := false; df_index_name := None;
     df_columns := ["ANO_MES"; "UF"; "QTD_ADESAO"];
     df_rows := [ {| r_label := Text "0";
                     r_cells := {[ "ANO_MES" := count 600; "UF" := Str "SP";
                                   "QTD_ADESAO" := count 1 ]} |};
                  {| r_label := Text "1";
                     r_cells := {[ "ANO_MES" := count 601; "UF" := Str "SP";
                                   "QTD_ADESAO" := count 2 ]} |} ] |}.

Definition uf_files : gmap string DataFrame := {[ "df_UF_proagro.csv" := uf_file ]}.

(** * Properties *)

(** ** The order of keys *)

Lemma ascii_compare_N (a b : ascii) :
  Ascii.compare a b = N.compare (N_of_ascii a) (N_of_ascii b).
Proof. reflexivity. Qed.

Lemma ascii_compare_eq (a b : ascii) : Ascii.compare a b = Eq ↔ a = b.
Proof.
  split; [apply Ascii.compare_eq_iff|].
  intros ->. rewrite ascii_compare_N. apply N.compare_refl.
Qed.

Lemma string_compare_refl (s : string) : String.compare s s = Eq.
Proof.
  induction s as [|c s IH]; simpl; [done|].
  by rewrite (proj2 (ascii_compare_eq c c) eq_refl).
Qed.

(** [String.compare] is transitive on "not greater". *)
Lemma string_compare_trans (s1 s2 s3 : string) :
  String.compare s1 s2 ≠ Gt → String.compare s2 s3 ≠ Gt →
  String.compare s1 s3 ≠ Gt.
Proof.
  revert s2 s3. induction s1 as [|c1 s1 IH]; intros [|c2 s2] [|c3 s3]; simpl;
    try done.
  rewrite !ascii_compare_N.
  destruct (N.compare_spec (N_of_ascii c1) (N_of_ascii c2)) as [E12|L12|G12];
    [| |done].
  - rewrite E12.
    destruct (N.compare (N_of_ascii c2) (N_of_ascii c3)); [apply IH|done|done].
  - destruct (N.compare_spec (N_of_ascii c2) (N_of_ascii c3)) as [E23|L23|G23];
      [| |done]; intros _ _.
    + rewrite <- E23. by rewrite (proj2 (N.compare_lt_iff _ _) L12).
    + by rewrite (proj2 (N.compare_lt_iff _ _) (N.lt_trans _ _ _ L12 L23)).
Qed.

Lemma leb_not_Gt (a b : string) :
  String.leb a b = true ↔ String.compare a b ≠ Gt.
Proof.
  unfold String.leb. destruct (String.compare a b); split; done.
Qed.

Lemma string_leb_trans (a b c : string) :
  String.leb a b = true → String.leb b c = true → String.leb a c = true.
Proof. rewrite !leb_not_Gt. apply string_compare_trans. Qed.

Lemma string_leb_refl (a : string) : String.leb a a = true.
Proof. apply leb_not_Gt. by rewrite string_compare_refl. Qed.

Global Instance key_le_total : Total key_le.
Proof.
  intros [[]|x|s|s] [[]|y|t|t]; unfold key_le; auto;
    first [ apply (total Qcanon.Qcle)
          | apply String.leb_total
          | destruct (Z.le_ge_cases s t); [left|right]; lia ].
Qed.

Global Instance key_le_trans : Transitive key_le.
Proof.
  intros [[]|x|s|s] [[]|y|t|t] [[]|z|u|u]; unfold key_le; try done;
    first [ apply Qcanon.Qcle_trans | apply string_leb_trans | lia ].
Qed.

Global Instance key_le_antisym : AntiSymm (=) key_le.
Proof.
  intros [[]|x|s|s] [[]|y|t|t]; unfold key_le; try done; intros ??; f_equal;
    first [ by apply Qcanon.Qcle_antisym | by apply String.leb_antisym | lia ].
Qed.

Global Instance key_le_refl : Reflexive key_le.
Proof.
  intros [[]|x|s|s]; unfold key_le; try done;
    first [ apply Qcanon.Qcle_refl | apply string_leb_refl ].
Qed.

(** ** Grouping *)

Lemma elem_of_unique (l : list Key) (x : Key) : x ∈ unique l ↔ x ∈ l.
Proof.
  induction l as [|y l IH]; simpl; [done|].
  rewrite !elem_of_cons, list_elem_of_filter, IH.
  destruct (decide (x = y)); intuition congruence.
Qed.

Lemma NoDup_unique (l : list Key) : NoDup (unique l).
Proof.
  induction l as [|y l IH]; simpl; [constructor|].
  constructor; [|by apply NoDup_filter].
  rewrite list_elem_of_filter. intros [? _]. congruence.
Qed.

Lemma group_keys_perm (d : DataFrame) (col : string) :
  group_keys d col ≡ₚ first_seen d col.
Proof. apply merge_sort_Permutation. Qed.

Lemma NoDup_group_keys (d : DataFrame) (col : string) : NoDup (group_keys d col).
Proof. rewrite group_keys_perm. apply NoDup_unique. Qed.

Lemma elem_of_group_keys (d : DataFrame) (col : string) (k : Key) :
  k ∈ group_keys d col ↔ ∃ r, r ∈ df_rows d ∧ row_key d col r = Some k.
Proof.
  rewrite group_keys_perm. unfold first_seen.
  by rewrite elem_of_unique, list_elem_of_omap.
Qed.

Lemma group_keys_sorted (d : DataFrame) (col : string) :
  StronglySorted key_le (group_keys d col).
Proof. apply (StronglySorted_merge_sort key_le). Qed.

(** ** One iteration of the loop *)

Section Loop.
Context {lib : Libraries}.

Lemma getitem_dropna_selected (data sel : DataFrame) (v : string) :
  getitem_columns data v = Ok sel →
  getitem (dropna sel) v = Ok (series_of data v).
Proof.
  unfold getitem_columns, getitem. destruct (decide (v ∈ df_columns data)); [|done].
  intros [= <-]. simpl. rewrite decide_True by apply list_elem_of_singleton, eq_refl.
  unfold series_of, frame_index, clean_rows. simpl.
  assert (∀ rows : list Row,
    filter (λ r, complete_row [v] r = true)
      ((λ r, {| r_label := r_label r; r_cells := {[ v := cell r v ]} |}) <$> rows)
    = (λ r, {| r_label := r_label r; r_cells := {[ v := cell r v ]} |})
      <$> filter (λ r, isna (cell r v) = false) rows) as Hrows.
  { induction rows as [|r rows IH]; [done|]. rewrite fmap_cons, !filter_cons, IH.
    assert (complete_row [v] {| r_label := r_label r; r_cells := {[ v := cell r v ]} |}
            = negb (isna (cell r v))) as Hc.
    { unfold complete_row. simpl. unfold cell at 1. simpl.
      rewrite lookup_singleton_eq. simpl. by rewrite andb_true_r. }
    rewrite Hc. by destruct (isna (cell r v)). }
  rewrite Hrows, <- !list_fmap_compose. f_equal. f_equal.
  apply list_fmap_ext. intros i r _. simpl. unfold cell at 1. simpl.
  by rewrite lookup_singleton_eq.
Qed.

(** One iteration: the projection may raise [KeyError]; otherwise the copy
    without its missing rows is a new frame of the store, and the outcome
    of [seasonal_decompose] on its column decides the rest. *)
Lemma decompose_group_eq (g : Key * DataFrame) (s : State) :
  decompose_group g s =
  match getitem_columns g.2 (value_col (self s)) with
  | Raise e => (Raise e, s)
  | Ok sel =>
      let store' := frames s ++ [dropna sel] in
      match seasonal_decompose (series_of g.2 (value_col (self s))) (period (self s)) with
      | Ok r => (Ok tt, {| frames := store'; self := store g.1 r (self s) |})
      | Raise ValueError => (Ok tt, {| frames := store'; self := self s |})
      | Raise e => (Raise e, {| frames := store'; self := self s |})
      end
  end.
Proof.
  unfold decompose_group, mbind, M_bind, get_self, lift. simpl.
  destruct (getitem_columns g.2 (value_col (self s))) as [sel|e] eqn:Hsel; [|done].
  unfold alloc, modify_frame, except_ValueError, load. simpl.
  replace (alter dropna (length (frames s)) (frames s ++ [sel]))
    with (frames s ++ [dropna sel]).
  2:{ replace (length (frames s)) with (length (frames s) + 0)%nat at 1 by lia.
      by rewrite alter_app_r. }
  rewrite list_lookup_middle by done.
  rewrite (getitem_dropna_selected _ _ _ Hsel).
  destruct (seasonal_decompose _ _) as [r|[]]; done.
Qed.

(** ** The whole loop *)

Lemma state_eta (s : State) : {| frames := frames s ++ []; self := self s |} = s.
Proof. destruct s. simpl. by rewrite app_nil_r. Qed.

Local Ltac continue_loop IH :=
  match goal with
  | |- context [for_each _ _ ?s'] =>
      let ext := fresh "ext" in
      let Hext := fresh "Hext" in
      destruct (IH s') as [ext Hext]; [done|];
      rewrite Hext; cbn [self frames store value_col period store_all foldl fst snd];
      rewrite <- app_assoc; by eexists
  end.

Lemma for_each_groups (d : DataFrame) (g : string) (ks : list Key) (s : State) :
  value_col (self s) ∈ df_columns d →
  ∃ ext,
    for_each ((λ k, (k, group_frame d g k)) <$> ks) decompose_group s =
    let outs := (λ k, (k, seasonal_decompose
                            (group_series d g (value_col (self s)) k)
                            (period (self s)))) <$> ks in
    (ending outs,
     {| frames := frames s ++ ext; self := store_all (recorded outs) (self s) |}).
Proof.
  revert s. induction ks as [|k ks IH]; intros s Hv.
  - exists []. simpl. unfold mret, M_ret. by rewrite state_eta.
  - cbv zeta. rewrite !fmap_cons. cbn [for_each ending recorded].
    unfold mbind at 1, M_bind at 1. rewrite decompose_group_eq.
    cbn [fst snd]. unfold getitem_columns. cbn [group_frame df_columns].
    rewrite decide_True by done.
    fold (group_frame d g k). fold (group_series d g (value_col (self s)) k).
    destruct (seasonal_decompose _ _) as [r|e] eqn:Hsd.
    + continue_loop IH.
    + destruct e; try (eexists; reflexivity). continue_loop IH.
Qed.

Lemma decompose_series_unbound (s : State) :
  frames s !! df (self s) = None →
  decompose_series s = (Raise InvalidReference, s).
Proof.
  intros Hd. unfold decompose_series, mbind, M_bind, get_self, load. simpl.
  by rewrite Hd.
Qed.

(** [decompose_series] on the table [d]: how it ends and the instance it
    leaves are [analysed d]; the store only grows. *)
Lemma decompose_series_eq (s : State) (d : DataFrame) :
  frames s !! df (self s) = Some d →
  ∃ ext, decompose_series s =
         ((analysed d (self s)).1,
          {| frames := frames s ++ ext; self := (analysed d (self s)).2 |}).
Proof.
  intros Hd. unfold decompose_series, mbind, M_bind, get_self, load, lift. simpl.
  rewrite Hd. unfold analysed, groupby.
  destruct (grouper d (groupby_col (self s))) as [how|e].
  - destruct (decide (value_col (self s) ∈ df_columns d)) as [Hv|Hv].
    + apply for_each_groups, Hv.
    + destruct (group_keys d (groupby_col (self s))) as [|k ks]; simpl.
      * exists []. unfold mret, M_ret. by rewrite state_eta.
      * exists []. unfold mbind, M_bind. rewrite decompose_group_eq. simpl.
        unfold getitem_columns. simpl. rewrite decide_False by done.
        by rewrite state_eta.
  - exists []. simpl. by rewrite state_eta.
Qed.

End Loop.

(** ** What the loop stores *)

Lemma store_all_cons (k : Key) (r : DecomposeResult)
    (rs : list (Key * DecomposeResult)) (a : TimeSeriesAnalysis) :
  store_all ((k, r) :: rs) a = store_all rs (store k r a).
Proof. done. Qed.

Lemma store_all_fields (rs : list (Key * DecomposeResult)) (a : TimeSeriesAnalysis) :
  df (store_all rs a) = df a ∧ groupby_col (store_all rs a) = groupby_col a ∧
  value_col (store_all rs a) = value_col a ∧ period (store_all rs a) = period a.
Proof.
  revert a. induction rs as [|[k r] rs IH]; intros a; [done|].
  rewrite store_all_cons. destruct (IH (store k r a)) as (-> & -> & -> & ->). done.
Qed.

Lemma store_all_successful (rs : list (Key * DecomposeResult)) (a : TimeSeriesAnalysis) :
  successful_groups (store_all rs a) = successful_groups a ++ rs.*1.
Proof.
  revert a. induction rs as [|[k r] rs IH]; intros a.
  - simpl. by rewrite app_nil_r.
  - rewrite store_all_cons, IH. simpl. by rewrite <- app_assoc.
Qed.

Lemma store_all_is_Some (rs : list (Key * DecomposeResult)) (a : TimeSeriesAnalysis)
    (k : Key) :
  is_Some (results (store_all rs a) !! k) ↔ k ∈ rs.*1 ∨ is_Some (results a !! k).
Proof.
  revert a. induction rs as [|[k' r] rs IH]; intros a.
  - simpl. rewrite elem_of_nil. tauto.
  - rewrite store_all_cons, IH. simpl. rewrite elem_of_cons.
    destruct (decide (k = k')) as [->|Hk].
    + rewrite lookup_insert_eq. split; [auto|]. intros _. right. by eexists.
    + rewrite lookup_insert_ne by done. split; [tauto|].
      intros [[?|?]|?]; [done|by left|by right].
Qed.

Lemma store_all_lookup (rs : list (Key * DecomposeResult)) (a : TimeSeriesAnalysis)
    (k : Key) (r : DecomposeResult) :
  NoDup (rs.*1) →
  results (store_all rs a) !! k = Some r ↔
  (k, r) ∈ rs ∨ ((k ∉ rs.*1) ∧ results a !! k = Some r).
Proof.
  revert a. induction rs as [|[k' r'] rs IH]; intros a Hnd.
  - simpl. rewrite !elem_of_nil. tauto.
  - apply NoDup_cons in Hnd as [Hk' Hnd]. rewrite store_all_cons, IH by done.
    simpl. rewrite !elem_of_cons.
    destruct (decide (k = k')) as [->|Hk].
    + rewrite lookup_insert_eq. split.
      * intros [Hin|[Hn Heq]]; [|left; left; congruence].
        destruct Hk'. apply list_elem_of_fmap. by exists (k', r).
      * intros [[Heq|Hin]|[Hn _]]; [right; split; [done|congruence]| |tauto].
        destruct Hk'. apply list_elem_of_fmap. by exists (k', r).
    + rewrite lookup_insert_ne by done. split.
      * intros [Hin|[Hn Heq]]; [by left; right|right]. intuition congruence.
      * intros [[Heq|Hin]|[Hn Heq]]; [congruence|by left|right]. tauto.
Qed.

Section Recorded.
Context (f : Key → Result DecomposeResult).


Lemma recorded_sublist (ks : list Key) : (recorded (outcomes_of f ks)).*1 `sublist_of` ks.
Proof.
  induction ks as [|k ks IH]; [done|]. unfold outcomes_of in *.
  rewrite fmap_cons. cbn [recorded].
  destruct (f k) as [r|[]]; simpl;
    first [by apply sublist_skip | by apply sublist_cons | apply sublist_nil_l].
Qed.

Lemma elem_of_recorded (ks : list Key) (k : Key) (r : DecomposeResult) :
  (k, r) ∈ recorded (outcomes_of f ks) → k ∈ ks ∧ f k = Ok r.
Proof.
  unfold outcomes_of.
  induction ks as [|k' ks IH]; [intros Hin; by apply elem_of_nil in Hin|].
  rewrite fmap_cons. cbn [recorded]. rewrite elem_of_cons.
  destruct (f k') as [r'|e] eqn:Hf.
  - rewrite elem_of_cons. intros [Heq|Hin].
    + injection Heq as ? ?; subst. split; [by left|done].
    + destruct (IH Hin). split; [by right|done].
  - destruct e; try (by rewrite elem_of_nil).
    intros Hin. destruct (IH Hin). split; [by right|done].
Qed.

Lemma ending_raise (ks : list Key) (e : Exn) :
  ending (outcomes_of f ks) = Raise e → e ≠ ValueError ∧ ∃ k, k ∈ ks ∧ f k = Raise e.
Proof.
  unfold outcomes_of.
  induction ks as [|k ks IH]; [done|]. rewrite fmap_cons. cbn [ending].
  destruct (f k) as [r|e'] eqn:Hf.
  - intros He. destruct (IH He) as (? & k' & ? & ?). split; [done|].
    exists k'. by rewrite elem_of_cons; auto.
  - destruct e'; try (intros [= <-]; split; [done|]; exists k;
                      by rewrite elem_of_cons; auto).
    intros He. destruct (IH He) as (? & k' & ? & ?). split; [done|].
    exists k'. by rewrite elem_of_cons; auto.
Qed.

(** When no call raises anything but [ValueError], the loop runs to its
    end and stores exactly the groups whose call returned. *)
Lemma recorded_all (ks : list Key) :
  (∀ k, k ∈ ks → is_ok (f k) = true ∨ f k = Raise ValueError) →
  ending (outcomes_of f ks) = Ok tt ∧
  (recorded (outcomes_of f ks)).*1 = filter (λ k, is_ok (f k) = true) ks ∧
  ∀ k r, k ∈ ks → f k = Ok r → (k, r) ∈ recorded (outcomes_of f ks).
Proof.
  unfold outcomes_of.
  induction ks as [|k ks IH]; intros Hks.
  { split; [done|]. split; [done|]. intros k r Hin. by apply elem_of_nil in Hin. }
  destruct IH as (IH1 & IH2 & IH3).
  { intros k' Hk'. apply Hks. by rewrite elem_of_cons; auto. }
  rewrite fmap_cons, filter_cons. cbn [recorded ending].
  destruct (Hks k) as [Hok|Hve]; [by rewrite elem_of_cons; auto| |].
  - destruct (f k) as [r|e] eqn:Hf; [|done].
    rewrite fmap_cons, decide_True by done. cbn [fst].
    split; [done|]. split; [by rewrite IH2|].
    intros k' r' [->|Hin]%elem_of_cons Hf'.
    + rewrite Hf in Hf'. injection Hf' as ->. by left.
    + right. by apply IH3.
  - rewrite Hve. rewrite decide_False by done. split; [done|]. split; [done|].
    intros k' r' [->|Hin]%elem_of_cons Hf'; [congruence|by apply IH3].
Qed.

End Recorded.



(** ** [seasonal_decompose] *)

Section Decompose.
Context {lib : Libraries}.

Lemma mapM_finite_None (x : Series) :
  mapM finite (s_values x) = None ↔ ¬ all_finite x.
Proof.
  unfold all_finite. rewrite eq_None_not_Some, mapM_is_Some. done.
Qed.

(** With a positive period the call returns exactly for the decomposable
    series, with the series as [observed] and its index on every part;
    otherwise it raises [ValueError]. *)
Lemma seasonal_decompose_positive (x : Series) (p : Z) :
  0 < p →
  (decomposable x p ∧
   ∃ r, seasonal_decompose x p = Ok r ∧ observed r = x ∧
        s_index (trend r) = s_index x ∧ s_index (seasonal r) = s_index x ∧
        s_index (resid r) = s_index x) ∨
  (¬ decomposable x p ∧ seasonal_decompose x p = Raise ValueError).
Proof.
  intros Hp. unfold seasonal_decompose, decomposable, short.
  destruct (mapM finite (s_values x)) as [xs|] eqn:Hxs.
  - assert (all_finite x) as Hfin.
    { unfold all_finite. apply (mapM_is_Some_1 finite). by eexists. }
    destruct (Z.ltb_spec (nobs x) (2 * p)) as [Hlt|Hge].
    + right. split; [tauto|done].
    + destruct (Z.leb_spec p 0) as [?|_]; [lia|].
      left. split; [split; [lia|done]|]. eexists. split; [done|]. done.
  - right. apply mapM_finite_None in Hxs. split; [tauto|done].
Qed.

Lemma seasonal_decompose_ok_or_ValueError (x : Series) (p : Z) :
  0 < p →
  is_ok (seasonal_decompose x p) = true ∨ seasonal_decompose x p = Raise ValueError.
Proof.
  intros Hp. destruct (seasonal_decompose_positive x p Hp)
    as [(_ & r & -> & _)|[_ ->]]; [by left|by right].
Qed.

Lemma seasonal_decompose_is_ok (x : Series) (p : Z) :
  0 < p → is_ok (seasonal_decompose x p) = true ↔ decomposable x p.
Proof.
  intros Hp. destruct (seasonal_decompose_positive x p Hp)
    as [(Hd & r & -> & _)|[Hd ->]]; simpl; [tauto|]. split; [done|tauto].
Qed.

Lemma seasonal_decompose_observed (x : Series) (p : Z) (r : DecomposeResult) :
  0 < p → seasonal_decompose x p = Ok r → observed r = x ∧ decomposable x p.
Proof.
  intros Hp Hr. destruct (seasonal_decompose_positive x p Hp)
    as [(Hd & r' & Hr' & Hobs & _)|[_ Hr']]; [|congruence].
  rewrite Hr in Hr'. injection Hr' as <-. done.
Qed.


End Decompose.

(** ** Counting *)

Lemma length_filter_complement {A} (P : A → Prop) `{!∀ x, Decision (P x)} (l : list A) :
  length (filter P l) = (length l - length (filter (λ x, ¬ P x) l))%nat.
Proof.
  pose proof (filter_app_complement P l) as Hperm.
  apply Permutation_length in Hperm. rewrite length_app in Hperm. lia.
Qed.

(** ** The operation [decompose] *)

Section Decomposition.
Context {lib : Libraries}.

Lemma decompose_unbound (store : list DataFrame) (table : nat) (g v : string) (p : Z) :
  store !! table = None →
  decompose store table g v p =
  (Raise InvalidReference, {| frames := store; self := init table g v p |}).
Proof. intros Hd. by apply decompose_series_unbound. Qed.

Lemma decompose_eq (store : list DataFrame) (table : nat) (d : DataFrame)
    (g v : string) (p : Z) :
  store !! table = Some d →
  ∃ ext, decompose store table g v p =
         ((analysed d (init table g v p)).1,
          {| frames := store ++ ext; self := (analysed d (init table g v p)).2 |}).
Proof. intros Hd. by apply (decompose_series_eq (mkState store _)). Qed.

(** [analysed] either stores the recorded decompositions or, for a missing
    column, leaves the instance alone. *)
Lemma groupable_grouper (d : DataFrame) (col : string) :
  groupable d col ↔ ∃ how, grouper d col = Ok how.
Proof.
  unfold groupable. destruct (grouper d col) as [how|e]; simpl.
  - split; [by eexists|done].
  - split; [done|]. by intros [? ?].
Qed.

(** A frame can be grouped by a name that is a column or the name of the
    index, and not both. *)
Lemma groupable_iff (d : DataFrame) (col : string) :
  groupable d col ↔
  (col ∈ df_columns d ∧ df_index_name d ≠ Some col) ∨
  ((col ∉ df_columns d) ∧ df_index_name d = Some col).
Proof.
  unfold groupable, grouper.
  destruct (decide (col ∈ df_columns d)), (decide (df_index_name d = Some col));
    simpl; split; try done; try tauto; intros [[? ?]|[? ?]]; done.
Qed.

Lemma analysed_cases (d : DataFrame) (a : TimeSeriesAnalysis) :
  (groupable d (groupby_col a) ∧ value_col a ∈ df_columns d ∧
   analysed d a =
   let outs := outcomes d (groupby_col a) (value_col a) (period a) in
   (ending outs, store_all (recorded outs) a)) ∨
  ((¬ groupable d (groupby_col a) ∨ value_col a ∉ df_columns d) ∧
   (analysed d a).2 = a).
Proof.
  unfold analysed, groupable.
  destruct (grouper d (groupby_col a)) as [how|e]; simpl;
    [|right; split; [by left|done]].
  destruct (decide (value_col a ∈ df_columns d)); [by left|].
  right. split; [by right|]. by destruct (group_keys _ _).
Qed.

(** The successful groups after [analysed]: the old ones, then a
    subsequence of the group keys. *)
Lemma analysed_successful (d : DataFrame) (a : TimeSeriesAnalysis) :
  ∃ rs, (analysed d a).2 = store_all rs a ∧
        rs.*1 `sublist_of` group_keys d (groupby_col a) ∧
        ∀ k r, (k, r) ∈ rs →
               seasonal_decompose
                 (group_series d (groupby_col a) (value_col a) k) (period a) = Ok r.
Proof.
  destruct (analysed_cases d a) as [(_ & _ & ->)|[_ ->]].
  - eexists. split; [done|]. split; [apply recorded_sublist|].
    intros k r Hin. by apply elem_of_recorded in Hin as [_ ?].
  - exists []. split; [done|]. split; [apply sublist_nil_l|].
    intros k r Hin. by apply elem_of_nil in Hin.
Qed.

End Decomposition.

(** ** Completeness and order *)

(** Closed decidable facts about concrete tables, by evaluation. *)
Ltac by_decide := refine (bool_decide_unpack _ _); vm_compute; exact I.

Section Engine.
Context {lib : Libraries}.

(** With a grouping, the value column and a positive period: the run ends
    normally and the successful groups are the decomposable groups, in
    iteration order. *)
Lemma decompose_positive (store : list DataFrame) (table : nat) (d : DataFrame)
    (g v : string) (p : Z) :
  store !! table = Some d → groupable d g → v ∈ df_columns d → 0 < p →
  (decompose store table g v p).1 = Ok tt ∧
  successful_groups (self (decompose store table g v p).2) =
    filter (λ k, decomposable (group_series d g v k) p) (group_keys d g) ∧
  ∀ k r, results (self (decompose store table g v p).2) !! k = Some r ↔
         k ∈ group_keys d g ∧ seasonal_decompose (group_series d g v k) p = Ok r.
Proof.
  intros Hd Hg Hv Hp. destruct (decompose_eq store table d g v p Hd) as [ext ->].
  cbn [fst snd self].
  destruct (analysed_cases d (init table g v p)) as [(_ & _ & ->)|[[?|?] _]];
    [|done|done].
  cbn [fst snd init groupby_col value_col period]. unfold outcomes.
  destruct (recorded_all (λ k, seasonal_decompose (group_series d g v k) p)
              (group_keys d g)) as (Hend & Hrec & Hall).
  { intros k _. by apply seasonal_decompose_ok_or_ValueError. }
  split; [done|]. split.
  - rewrite store_all_successful, Hrec. simpl.
    apply list_filter_iff. intros k. by apply seasonal_decompose_is_ok.
  - intros k r. rewrite store_all_lookup.
    2:{ apply (sublist_NoDup _ (group_keys d g));
          [apply NoDup_group_keys|apply recorded_sublist]. }
    simpl. rewrite lookup_empty. split.
    + intros [Hin|[_ ?]]; [|done]. by apply elem_of_recorded in Hin.
    + intros [Hin Hr]. left. by apply Hall.
Qed.

End Engine.

(** C1 (as amended).  For a table that can be grouped by [groupby_col] (a
    column of the table, or the name of its index, and not both) and has
    the column [value_col], and for a positive period, [decompose]
    processes every group and ends normally.  With [N] groups of which [K]
    cannot be decomposed (fewer than [2 * period] non-missing observations,
    or a non-missing observation that is not a finite number), the list of
    successful groups has [N - K] entries, and its entries are exactly the
    groups with at least [2 * period] non-missing observations, all of
    them finite. *)
Theorem decompose_completeness {lib : Libraries} (store : list DataFrame)
    (table : nat) (d : DataFrame) (g v : string) (p : Z) :
  store !! table = Some d → groupable d g → v ∈ df_columns d → 0 < p →
  let run := decompose store table g v p in
  let keys := group_keys d g in
  run.1 = Ok tt ∧
  length (successful_groups (self run.2)) =
    (length keys
     - length (filter (λ k, ¬ decomposable (group_series d g v k) p) keys))%nat ∧
  ∀ k, k ∈ successful_groups (self run.2) ↔
       k ∈ keys ∧ ¬ short (group_series d g v k) p ∧ all_finite (group_series d g v k).
Proof.
  intros Hd Hg Hv Hp run keys.
  destruct (decompose_positive store table d g v p Hd Hg Hv Hp) as (Hok & Hsucc & _).
  subst run keys. split; [done|]. rewrite Hsucc. split.
  - apply length_filter_complement.
  - intros k. rewrite list_elem_of_filter. unfold decomposable. tauto.
Qed.

Lemma decompose_completeness_witness :
  [code_table] !! 0%nat = Some code_table ∧
  groupable code_table "PRODUTO" ∧ "QTD_ADESAO" ∈ df_columns code_table ∧ 0 < 1 ∧
  (@decompose plain_libraries [code_table] 0 "PRODUTO" "QTD_ADESAO" 1).1 = Ok tt.
Proof.
  assert (groupable code_table "PRODUTO") as Hg by by_decide.
  assert ("QTD_ADESAO" ∈ df_columns code_table) as Hv by by_decide.
  assert (0 < 1) as Hp by lia.
  split; [reflexivity|]. split; [exact Hg|]. split; [exact Hv|]. split; [exact Hp|].
  exact (proj1 (@decompose_completeness plain_libraries [code_table] 0%nat code_table
                  "PRODUTO" "QTD_ADESAO" 1 eq_refl Hg Hv Hp)).
Defined.

(** C1, as the specification words it, fails for a group with an infinite
    value: ["RJ"] has its [2 * 1] non-missing observations and is not among
    the successful groups. *)
Lemma completeness_as_specified_fails :
  [inf_table] !! 0%nat = Some inf_table ∧
  "UF" ∈ df_columns inf_table ∧ "QTD_ADESAO" ∈ df_columns inf_table ∧ 0 < 1 ∧
  ¬ @completeness_as_specified plain_libraries [inf_table] 0 inf_table
      "UF" "QTD_ADESAO" 1.
Proof.
  split; [reflexivity|]. split; [by_decide|].
  split; [by_decide|]. split; [lia|].
  intros [Hlen _]. vm_compute in Hlen. discriminate Hlen.
Qed.

(** C2 (as amended).  The list of successful groups is a subsequence of the
    group keys in the order [groupby] iterates them, which is the distinct
    non-missing group values of the table (numbers, text, or labels of the
    index) sorted in ascending order, not their order of first
    appearance. *)
Theorem successful_groups_sorted_order {lib : Libraries} (store : list DataFrame)
    (table : nat) (d : DataFrame) (g v : string) (p : Z) :
  store !! table = Some d →
  successful_groups (self (decompose store table g v p).2)
    `sublist_of` group_keys d g ∧
  group_keys d g ≡ₚ first_seen d g ∧
  StronglySorted key_le (group_keys d g) ∧
  NoDup (group_keys d g).
Proof.
  intros Hd. split; [|split; [apply group_keys_perm|split;
    [apply group_keys_sorted|apply NoDup_group_keys]]].
  destruct (decompose_eq store table d g v p Hd) as [ext ->]. cbn [snd self].
  destruct (analysed_successful d (init table g v p)) as (rs & -> & Hsub & _).
  by rewrite store_all_successful.
Qed.

Lemma successful_groups_sorted_order_witness :
  [sp_rj_table] !! 0%nat = Some sp_rj_table ∧
  successful_groups
    (self (@decompose plain_libraries [sp_rj_table] 0 "UF" "QTD_ADESAO" 1).2)
    `sublist_of` group_keys sp_rj_table "UF".
Proof.
  split; [reflexivity|].
  exact (proj1 (@successful_groups_sorted_order plain_libraries [sp_rj_table] 0%nat
                  sp_rj_table "UF" "QTD_ADESAO" 1 eq_refl)).
Defined.

(** C2, as the specification words it, fails when a group value that
    sorts later appears first: ["SP"] is seen before ["RJ"], and the
    successful groups are ["RJ"], ["SP"]. *)
Lemma first_seen_order_as_specified_fails :
  [sp_rj_table] !! 0%nat = Some sp_rj_table ∧
  first_seen sp_rj_table "UF" = [KStr "SP"; KStr "RJ"] ∧
  successful_groups
    (self (@decompose plain_libraries [sp_rj_table] 0 "UF" "QTD_ADESAO" 1).2)
  = [KStr "RJ"; KStr "SP"] ∧
  ¬ @first_seen_order_as_specified plain_libraries [sp_rj_table] 0 sp_rj_table
      "UF" "QTD_ADESAO" 1.
Proof.
  split; [reflexivity|]. split; [by vm_compute|]. split; [by vm_compute|].
  unfold first_seen_order_as_specified.
  replace (successful_groups _) with [KStr "RJ"; KStr "SP"] by (by vm_compute).
  replace (first_seen _ _) with [KStr "SP"; KStr "RJ"] by (by vm_compute).
  intros Hsub.
  inversion Hsub as [| |x l1 l2 Hsub']; subst.
  inversion Hsub' as [|x l1 l2 Hnil|x l1 l2 Hnil]; subst; inversion Hnil.
Qed.

(** Grouping by a column of numbers: the products 2 and 1 of [code_table]
    are both decomposed, and listed in ascending order. *)
Example decompose_numeric_groups :
  first_seen code_table "PRODUTO"
    = [KNum (Qcanon.Q2Qc (QArith_base.Qmake 2 1)); KNum (Qcanon.Q2Qc (QArith_base.Qmake 1 1))] ∧
  successful_groups
    (self (@decompose plain_libraries [code_table] 0 "PRODUTO" "QTD_ADESAO" 1).2)
    = [KNum (Qcanon.Q2Qc (QArith_base.Qmake 1 1)); KNum (Qcanon.Q2Qc (QArith_base.Qmake 2 1))].
Proof. split; by vm_compute. Qed.

(** Grouping by the name of the index: every month of [sp_rj_table] is a
    group of two rows, and with period 1 both are decomposed. *)
Example decompose_index_groups :
  grouper sp_rj_table "ANO_MES" = Ok by_index ∧
  (@decompose plain_libraries [sp_rj_table] 0 "ANO_MES" "QTD_ADESAO" 1).1 = Ok tt ∧
  successful_groups
    (self (@decompose plain_libraries [sp_rj_table] 0 "ANO_MES" "QTD_ADESAO" 1).2)
    = [KTime 0; KTime 1].
Proof. repeat split; by vm_compute. Qed.

(** ** The store *)

(** [decompose_series] only adds frames to the store and keeps the fields
    other than the dict and the list. *)
Lemma decompose_series_extends {lib : Libraries} (s : State) :
  ∃ ext, frames (decompose_series s).2 = frames s ++ ext ∧
         df (self (decompose_series s).2) = df (self s).
Proof.
  destruct (frames s !! df (self s)) as [d|] eqn:Hd.
  - destruct (decompose_series_eq s d Hd) as [ext ->]. exists ext.
    split; [done|]. cbn [snd self].
    destruct (analysed_successful d (self s)) as (rs & -> & _).
    apply store_all_fields.
  - rewrite decompose_series_unbound by done. exists []. by rewrite app_nil_r.
Qed.

(** C9.  [decompose_series] leaves the caller's table unchanged: every
    frame of the store before the call, the table behind [self.df] among
    them, is the same frame after the call, whether the call returns or
    raises; the projection and [dropna] work on a copy stored elsewhere. *)
Theorem decompose_series_keeps_table {lib : Libraries} (s : State)
    (l : nat) (d : DataFrame) :
  frames s !! l = Some d →
  frames (decompose_series s).2 !! l = Some d ∧
  df (self (decompose_series s).2) = df (self s).
Proof.
  intros Hl. destruct (decompose_series_extends s) as (ext & -> & Hdf).
  split; [|done]. by apply lookup_app_l_Some.
Qed.

Lemma decompose_series_keeps_table_witness :
  frames {| frames := [gap_table]; self := init 0 "UF" "QTD_ADESAO" 12 |} !! 0%nat
    = Some gap_table ∧
  frames (@decompose_series plain_libraries
            {| frames := [gap_table]; self := init 0 "UF" "QTD_ADESAO" 12 |}).2
    !! 0%nat = Some gap_table.
Proof.
  split; [reflexivity|].
  exact (proj1 (@decompose_series_keeps_table plain_libraries
                  {| frames := [gap_table]; self := init 0 "UF" "QTD_ADESAO" 12 |}
                  0%nat gap_table eq_refl)).
Defined.

(** ** Repeated analysis *)

Lemma execute_analysis_eq {lib : Libraries} (table : nat) (g v : string)
    (ss : Session) :
  execute_analysis table g v ss =
  let run := decompose (ss_frames ss) table g v 12 in
  (run.1,
   {| ss_frames := frames run.2;
      ss_analysis := Some (self run.2);
      ss_successful_groups :=
        match run.1 with
        | Ok _ => Some (successful_groups (self run.2))
        | Raise _ => ss_successful_groups ss
        end |}).
Proof.
  unfold execute_analysis, decompose.
  by destruct (decompose_series _) as [[[]|e] s'].
Qed.

Lemma decompose_again {lib : Libraries} (store : list DataFrame) (table : nat)
    (g v : string) (p : Z) :
  (decompose (frames (decompose store table g v p).2) table g v p).1
  = (decompose store table g v p).1 ∧
  self (decompose (frames (decompose store table g v p).2) table g v p).2
  = self (decompose store table g v p).2.
Proof.
  destruct (store !! table) as [d|] eqn:Hd.
  - destruct (decompose_eq store table d g v p Hd) as [ext ->].
    cbn [fst snd frames self].
    destruct (decompose_eq (store ++ ext) table d g v p) as [ext' ->];
      [by apply lookup_app_l_Some|]. done.
  - rewrite (decompose_unbound store) by done. cbn [fst snd frames self].
    by rewrite (decompose_unbound store) by done.
Qed.

(** C3.  Running the decomposition step twice with the same inputs gives
    the same result.  The instance is new at each run (empty dict, empty
    list), so the second run, in the store the first one left, ends the same
    way and leaves an identical instance: the same list of successful groups
    and the same decomposition for every group.  For the button handler:
    the entry ["analysis"] after a run is the instance of [decompose] on the
    table, whatever the session held before, and a second press leaves the
    same entries as the first. *)
Theorem decompose_twice {lib : Libraries} (store : list DataFrame) (table : nat)
    (g v : string) (p : Z) (ss : Session) :
  let run1 := decompose store table g v p in
  let run2 := decompose (frames run1.2) table g v p in
  let press1 := execute_analysis table g v ss in
  let press2 := execute_analysis table g v press1.2 in
  (results (init table g v p) = ∅ ∧ successful_groups (init table g v p) = []) ∧
  (run2.1 = run1.1 ∧ self run2.2 = self run1.2) ∧
  ss_analysis press1.2 = Some (self (decompose (ss_frames ss) table g v 12).2) ∧
  (press2.1 = press1.1 ∧ ss_analysis press2.2 = ss_analysis press1.2 ∧
   ss_successful_groups press2.2 = ss_successful_groups press1.2).
Proof.
  intros run1 run2 press1 press2. split; [done|]. split; [apply decompose_again|].
  subst press2 press1. rewrite (execute_analysis_eq _ _ _ (execute_analysis _ _ _ _).2).
  rewrite !execute_analysis_eq. cbn [fst snd ss_frames ss_analysis ss_successful_groups].
  destruct (decompose_again (ss_frames ss) table g v 12) as [-> ->].
  split; [done|]. split; [done|]. split; [done|].
  by destruct (decompose (ss_frames ss) table g v 12).1.
Qed.

(** The dict and the list are made by [__init__], not by
    [decompose_series]: a second call on the same instance, which the
    program never makes, appends the groups again. *)
Example decompose_series_same_instance :
  successful_groups (self (@decompose_series plain_libraries gap_state).2)
  = [KStr "A"; KStr "A"].
Proof. by vm_compute. Qed.

(** ** The dict and the list *)

Lemma consistent_init (table : nat) (g v : string) (p : Z) :
  consistent (init table g v p).
Proof.
  intros k. simpl. rewrite lookup_empty, elem_of_nil. split; [done|].
  by intros [? ?].
Qed.

Lemma consistent_store_all (rs : list (Key * DecomposeResult))
    (a : TimeSeriesAnalysis) :
  consistent a → consistent (store_all rs a).
Proof.
  intros Ha k. rewrite store_all_successful, store_all_is_Some, elem_of_app, (Ha k).
  tauto.
Qed.

Lemma consistent_decompose_series {lib : Libraries} (s : State) :
  consistent (self s) → consistent (self (decompose_series s).2).
Proof.
  intros Hs. destruct (frames s !! df (self s)) as [d|] eqn:Hd.
  - destruct (decompose_series_eq s d Hd) as [ext ->]. cbn [snd self].
    destruct (analysed_successful d (self s)) as (rs & -> & _).
    by apply consistent_store_all.
  - by rewrite decompose_series_unbound.
Qed.

(** C10.  After one call of [decompose_series] on a new instance the list
    of successful groups has no duplicates, and its keys are exactly the
    keys of the dict of results (whether the call returned or raised). *)
Theorem decompose_consistent {lib : Libraries} (store : list DataFrame)
    (table : nat) (g v : string) (p : Z) :
  let a := self (decompose_series
                   {| frames := store; self := init table g v p |}).2 in
  NoDup (successful_groups a) ∧
  (∀ k, k ∈ successful_groups a ↔ is_Some (results a !! k)) ∧
  dom (results a) = list_to_set (successful_groups a).
Proof.
  intros a.
  assert (consistent a) as Hcons.
  { apply consistent_decompose_series, consistent_init. }
  split; [|split; [exact Hcons|]].
  - subst a. fold (decompose store table g v p).
    destruct (store !! table) as [d|] eqn:Hd.
    + destruct (decompose_eq store table d g v p Hd) as [ext ->]. cbn [snd self].
      destruct (analysed_successful d (init table g v p)) as (rs & -> & Hsub & _).
      rewrite store_all_successful. simpl.
      by apply (sublist_NoDup _ (group_keys d g)); [apply NoDup_group_keys|].
    + rewrite decompose_unbound by done. constructor.
  - apply set_eq. intros k. rewrite elem_of_dom, elem_of_list_to_set.
    symmetry. apply Hcons.
Qed.

(** ** Invalid input *)

(** C4 (as amended).  [decompose] has no check of its own for the columns;
    the errors are those of pandas.  When [groupby_col] is neither a column
    nor the name of the index, [groupby] raises [KeyError] before any group
    is processed; when it is both, [groupby] raises [ValueError] (the name
    is ambiguous).  When the table can be grouped but [value_col] is not a
    column and the table has at least one group, the projection of the
    first group raises [KeyError].  In all these cases the state is the
    initial one: nothing is stored and no frame is copied.  When
    [value_col] is not a column and the table has no group, the call
    returns normally with the empty dict and the empty list. *)
Theorem decompose_missing_column {lib : Libraries} (store : list DataFrame)
    (table : nat) (d : DataFrame) (g v : string) (p : Z) :
  store !! table = Some d →
  let initial := {| frames := store; self := init table g v p |} in
  (g ∉ df_columns d → df_index_name d ≠ Some g →
   decompose store table g v p = (Raise (KeyError g), initial)) ∧
  (g ∈ df_columns d → df_index_name d = Some g →
   decompose store table g v p = (Raise ValueError, initial)) ∧
  (groupable d g → v ∉ df_columns d → group_keys d g ≠ [] →
   decompose store table g v p = (Raise (KeyError v), initial)) ∧
  (groupable d g → v ∉ df_columns d → group_keys d g = [] →
   decompose store table g v p = (Ok tt, initial)).
Proof.
  intros Hd initial. subst initial.
  assert (v ∉ df_columns d ∨ ¬ groupable d g →
          decompose store table g v p =
          ((analysed d (init table g v p)).1,
           {| frames := store; self := (analysed d (init table g v p)).2 |})) as Hraw.
  { intros Hmiss. unfold decompose, decompose_series, mbind, M_bind, get_self, load, lift.
    cbn [self frames init df groupby_col]. rewrite Hd.
    unfold analysed, groupby, groupable in *.
    cbn [init groupby_col value_col].
    destruct (grouper d g) as [how|e]; [|done].
    destruct (decide (v ∈ df_columns d)) as [Hv|Hv]; [by destruct Hmiss|].
    destruct (group_keys d g) as [|k ks]; [done|].
    rewrite fmap_cons. cbn [for_each]. unfold mbind, M_bind.
    rewrite decompose_group_eq. cbn [fst snd self value_col].
    unfold getitem_columns. cbn [group_frame df_columns].
    by rewrite decide_False by done. }
  split; [|split; [|split]].
  - intros Hg Hix. rewrite Hraw.
    2:{ right. rewrite groupable_iff. tauto. }
    unfold analysed, grouper. cbn [init groupby_col].
    by rewrite !decide_False by done.
  - intros Hg Hix. rewrite Hraw.
    2:{ right. rewrite groupable_iff. tauto. }
    unfold analysed, grouper. cbn [init groupby_col].
    by rewrite !decide_True by done.
  - intros [how Hg]%groupable_grouper Hv Hks. rewrite Hraw by tauto. unfold analysed.
    cbn [init groupby_col value_col].
    rewrite Hg, decide_False by done. by destruct (group_keys d g).
  - intros [how Hg]%groupable_grouper Hv Hks. rewrite Hraw by tauto. unfold analysed.
    cbn [init groupby_col value_col].
    rewrite Hg, decide_False by done. by rewrite Hks.
Qed.

Lemma decompose_missing_column_witness :
  [sp_rj_table] !! 0%nat = Some sp_rj_table ∧
  @decompose plain_libraries [sp_rj_table] 0 "UF" "QTD" 12 =
  (Raise (KeyError "QTD"), {| frames := [sp_rj_table]; self := init 0 "UF" "QTD" 12 |}).
Proof.
  split; [reflexivity|].
  refine (proj1 (proj2 (proj2 (@decompose_missing_column plain_libraries [sp_rj_table]
                                 0%nat sp_rj_table "UF" "QTD" 12 eq_refl))) _ _ _).
  - by_decide.
  - by_decide.
  - by vm_compute.
Defined.

(** C4, as the specification words it, fails for a table without rows:
    [value_col] is absent, and the call returns normally with an empty
    state. *)
Lemma missing_value_col_not_rejected :
  [no_value_table] !! 0%nat = Some no_value_table ∧
  ("QTD_ADESAO" ∉ df_columns no_value_table) ∧
  @decompose plain_libraries [no_value_table] 0 "UF" "QTD_ADESAO" 12 =
    (Ok tt, {| frames := [no_value_table]; self := init 0 "UF" "QTD_ADESAO" 12 |}) ∧
  ¬ @rejected plain_libraries [no_value_table] 0 "UF" "QTD_ADESAO" 12.
Proof.
  split; [reflexivity|]. split; [by_decide|]. split; [by vm_compute|].
  intros [e He]. vm_compute in He. discriminate He.
Qed.





(** ** Lookup and presentation *)

Section Presentation.
Context {lib : Libraries}.

Lemma plot_decomposition_eq (group : Key) (s : State) :
  plot_decomposition group s =
  match results (self s) !! group with
  | None => (Ok (warning group), s)
  | Some r =>
      (Ok (plotly_chart (figure (ensure_datetime_indexes r))),
       {| frames := frames s;
          self := {| df := df (self s); groupby_col := groupby_col (self s);
                     value_col := value_col (self s); period := period (self s);
                     results := <[group := ensure_datetime_indexes r]> (results (self s));
                     successful_groups := successful_groups (self s) |} |})
  end.
Proof.
  unfold plot_decomposition, mbind, M_bind, get_self. simpl.
  by destruct (results (self s) !! group).
Qed.

Lemma consistent_plot_decomposition (group : Key) (s : State) :
  consistent (self s) → consistent (self (plot_decomposition group s).2).
Proof.
  intros Hs. rewrite plot_decomposition_eq.
  destruct (results (self s) !! group) as [r|] eqn:Hr; [|done].
  intros k. simpl. rewrite (Hs k).
  destruct (decide (k = group)) as [->|Hk].
  - rewrite lookup_insert_eq, Hr. split; by eexists.
  - by rewrite lookup_insert_ne.
Qed.

Lemma reachable_consistent (s : State) : reachable s → consistent (self s).
Proof.
  induction 1 as [store table g v p|s _ IH|s group _ IH|s store _ IH].
  - apply consistent_init.
  - by apply consistent_decompose_series.
  - by apply consistent_plot_decomposition.
  - done.
Qed.

End Presentation.

(** C6.  In every state an instance can be in, asking for the
    decomposition of a group that is not in the list of successful groups
    shows the warning and returns: no exception is raised and the state is
    unchanged. *)
Theorem plot_decomposition_absent {lib : Libraries} (s : State) (group : Key) :
  reachable s → group ∉ successful_groups (self s) →
  plot_decomposition group s = (Ok (warning group), s).
Proof.
  intros Hs Hgroup. rewrite plot_decomposition_eq.
  destruct (results (self s) !! group) as [r|] eqn:Hr; [|done].
  destruct Hgroup. apply (reachable_consistent s Hs). by eexists.
Qed.

Lemma plot_decomposition_absent_witness :
  @reachable plain_libraries gap_state ∧
  (KStr "B" ∉ successful_groups (self gap_state)) ∧
  @plot_decomposition plain_libraries "B" gap_state = (Ok (warning "B"), gap_state).
Proof.
  assert (@reachable plain_libraries gap_state) as Hs.
  { apply reach_decompose_series, reach_init. }
  assert (KStr "B" ∉ successful_groups (self gap_state)) as HB by by_decide.
  split; [exact Hs|]. split; [exact HB|].
  exact (@plot_decomposition_absent plain_libraries gap_state "B" Hs HB).
Defined.

(** ** Missing values *)

Lemma group_series_values (d : DataFrame) (g v : string) (k : Key) :
  Forall (λ c, isna c = false) (s_values (group_series d g v k)) ∧
  s_values (group_series d g v k)
    `sublist_of` ((λ r, cell r v) <$> group_rows d g k) ∧
  length (s_values (group_series d g v k)) =
    length (filter (λ r, isna (cell r v) = false) (group_rows d g k)).
Proof.
  unfold group_series, series_of, clean_rows. cbn [s_values group_frame df_rows].
  split; [|split].
  - apply Forall_fmap, Forall_forall. intros r Hr.
    by apply list_elem_of_filter in Hr as [? _].
  - apply fmap_sublist, sublist_filter.
  - by rewrite length_fmap.
Qed.

Lemma decompose_result {lib : Libraries} (store : list DataFrame) (table : nat)
    (d : DataFrame) (g v : string) (p : Z) (k : Key) (r : DecomposeResult) :
  store !! table = Some d →
  results (self (decompose store table g v p).2) !! k = Some r →
  k ∈ group_keys d g ∧ seasonal_decompose (group_series d g v k) p = Ok r.
Proof.
  intros Hd. destruct (decompose_eq store table d g v p Hd) as [ext ->].
  cbn [snd self].
  destruct (analysed_successful d (init table g v p)) as (rs & -> & Hsub & Hrs).
  rewrite store_all_lookup
    by (by apply (sublist_NoDup _ (group_keys d g)); [apply NoDup_group_keys|]).
  simpl. rewrite lookup_empty. intros [Hin|[_ ?]]; [|done]. split.
  - apply (elem_of_sublist (rs.*1)); [|done].
    apply list_elem_of_fmap. by exists (k, r).
  - by apply Hrs.
Qed.

Lemma group_series_observations (d : DataFrame) (g v : string) (k : Key) :
  s_values (group_series d g v k) =
  filter (λ c, isna c = false) ((λ r, cell r v) <$> group_rows d g k).
Proof.
  unfold group_series, series_of, clean_rows. cbn [s_values group_frame df_rows].
  induction (group_rows d g k) as [|r rows IH]; [done|].
  rewrite fmap_cons, !filter_cons.
  destruct (decide (isna (cell r v) = false)); [|done].
  by rewrite fmap_cons, IH.
Qed.

(** C7.  The rows of a group whose value is missing are left out before
    the decomposition is attempted, and nothing is put in their place.
    With a positive period, a group succeeds as soon as the values that
    are left (those of its rows that have one, in the order of the table)
    are finite and at least two periods long, however many of its rows
    have a missing value, and they are then the [observed] part of its
    stored decomposition.  Conversely a stored decomposition is that of
    the non-missing observations of its group.  In particular a group of
    36 monthly rows with the value of the seventh month missing succeeds
    with period 12, on its 35 observations. *)
Theorem missing_rows_excluded {lib : Libraries} :
  (∀ (store : list DataFrame) (table : nat) (d : DataFrame) (g v : string)
     (p : Z) (k : Key),
     store !! table = Some d → groupable d g → v ∈ df_columns d → 0 < p →
     k ∈ group_keys d g →
     let values := filter (λ c, isna c = false) ((λ r, cell r v) <$> group_rows d g k) in
     Forall (λ c, is_Some (finite c)) values → 2 * p ≤ Z.of_nat (length values) →
     let run := decompose store table g v p in
     k ∈ successful_groups (self run.2) ∧
     ∃ r, results (self run.2) !! k = Some r ∧ s_values (observed r) = values) ∧
  (∀ (store : list DataFrame) (table : nat) (d : DataFrame) (g v : string)
     (p : Z) (k : Key) (r : DecomposeResult),
     store !! table = Some d →
     results (self (decompose store table g v p).2) !! k = Some r →
     let x := group_series d g v k in
     seasonal_decompose x p = Ok r ∧
     (0 < p → observed r = x) ∧
     Forall (λ c, isna c = false) (s_values x) ∧
     s_values x `sublist_of` ((λ r, cell r v) <$> group_rows d g k) ∧
     length (s_values x) =
       length (filter (λ r, isna (cell r v) = false) (group_rows d g k))) ∧
  (let run := decompose [gap_table] 0 "UF" "QTD_ADESAO" 12 in
   length (group_rows gap_table "UF" "A") = 36%nat ∧
   length (filter (λ r, isna (cell r "QTD_ADESAO") = true)
             (group_rows gap_table "UF" "A")) = 1%nat ∧
   run.1 = Ok tt ∧
   successful_groups (self run.2) = [KStr "A"] ∧
   ∃ r, results (self run.2) !! KStr "A" = Some r ∧
        length (s_values (observed r)) = 35%nat ∧
        Forall (λ c, isna c = false) (s_values (observed r))).
Proof.
  split; [|split].
  - intros store table d g v p k Hd Hg Hv Hp Hk values Hfin Hlen run.
    subst values run. rewrite <- group_series_observations in *.
    destruct (decompose_positive store table d g v p Hd Hg Hv Hp)
      as (_ & -> & Hres).
    assert (decomposable (group_series d g v k) p) as Hdec.
    { split; [unfold short, nobs; lia|done]. }
    split; [by apply list_elem_of_filter|].
    destruct (seasonal_decompose_positive (group_series d g v k) p Hp)
      as [(_ & r & Hr & Hobs & _)|[Hnot _]]; [|done].
    exists r. split; [by apply Hres|]. by rewrite Hobs.
  - intros store table d g v p k r Hd Hr x.
    destruct (decompose_result store table d g v p k r Hd Hr) as [_ Hsd].
    split; [done|]. split.
    + intros Hp. by apply (seasonal_decompose_observed x p r Hp).
    + apply group_series_values.
  - cbv zeta. split; [by vm_compute|]. split; [by vm_compute|].
    assert ([gap_table] !! 0%nat = Some gap_table) as Hd by done.
    assert (groupable gap_table "UF") as Hg by by_decide.
    assert ("QTD_ADESAO" ∈ df_columns gap_table) as Hv by by_decide.
    destruct (decompose_positive [gap_table] 0%nat gap_table "UF" "QTD_ADESAO" 12
                Hd Hg Hv ltac:(lia)) as (Hok & Hsucc & Hres).
    split; [done|]. split; [rewrite Hsucc; by vm_compute|].
    destruct (seasonal_decompose_positive (group_series gap_table "UF" "QTD_ADESAO" "A")
                12 ltac:(lia)) as [(_ & r & Hr & Hobs & _)|[Hnot _]].
    + exists r. split; [apply Hres; split; [by_decide|done]|].
      rewrite Hobs. split; [by vm_compute|]. apply group_series_values.
    + destruct Hnot. by_decide.
Qed.

Lemma missing_rows_excluded_witness :
  [gap_row_table] !! 0%nat = Some gap_row_table ∧
  groupable gap_row_table "UF" ∧ "QTD_ADESAO" ∈ df_columns gap_row_table ∧ 0 < 1 ∧
  KStr "A" ∈ group_keys gap_row_table "UF" ∧
  (λ r, cell r "QTD_ADESAO") <$> group_rows gap_row_table "UF" "A"
    = [count 1; NaN; count 3] ∧
  KStr "A" ∈ successful_groups
               (self (@decompose plain_libraries [gap_row_table] 0 "UF" "QTD_ADESAO" 1).2) ∧
  ∃ r, results (self (@decompose plain_libraries [gap_row_table] 0 "UF" "QTD_ADESAO" 1).2)
         !! KStr "A" = Some r ∧
       s_values (observed r) = [count 1; count 3].
Proof.
  assert (groupable gap_row_table "UF") as Hg by by_decide.
  assert ("QTD_ADESAO" ∈ df_columns gap_row_table) as Hv by by_decide.
  assert (0 < 1) as Hp by lia.
  assert (KStr "A" ∈ group_keys gap_row_table "UF") as Hk by by_decide.
  split; [reflexivity|]. split; [exact Hg|]. split; [exact Hv|]. split; [exact Hp|].
  split; [exact Hk|]. split; [by vm_compute|].
  refine (proj1 (@missing_rows_excluded plain_libraries) [gap_row_table] 0%nat
            gap_row_table "UF" "QTD_ADESAO" 1 "A" eq_refl Hg Hv Hp Hk _ _).
  - by_decide.
  - by vm_compute.
Defined.

(** ** The presentation step and the stored result *)

Lemma ensure_datetime_index_id {lib : Libraries} (x : Series) :
  ix_datetime (s_index x) = true → ensure_datetime_index x = x.
Proof. unfold ensure_datetime_index. by intros ->. Qed.

Lemma ensure_datetime_index_spec {lib : Libraries} (x : Series) :
  s_values (ensure_datetime_index x) = s_values x ∧
  s_index (ensure_datetime_index x) =
    (if ix_datetime (s_index x) then s_index x else to_datetime (s_index x)) ∧
  ix_datetime (s_index (ensure_datetime_index x)) = true.
Proof.
  unfold ensure_datetime_index. by destruct (ix_datetime (s_index x)) eqn:Hx.
Qed.

(** A table with a [DatetimeIndex] (as [load_data] makes it) and a
    positive period give decompositions with a [DatetimeIndex] on every
    part. *)
Lemma decompose_datetime_indexed {lib : Libraries} (store : list DataFrame)
    (table : nat) (d : DataFrame) (g v : string) (p : Z) (k : Key)
    (r : DecomposeResult) :
  store !! table = Some d → df_datetime d = true → 0 < p →
  results (self (decompose store table g v p).2) !! k = Some r →
  datetime_indexed r.
Proof.
  intros Hd Hdt Hp Hr.
  destruct (decompose_result store table d g v p k r Hd Hr) as [_ Hsd].
  destruct (seasonal_decompose_positive (group_series d g v k) p Hp)
    as [(_ & r' & Hr' & Ho & Ht & Hs & Hres)|[_ Hr']]; [|congruence].
  rewrite Hsd in Hr'. injection Hr' as <-.
  unfold datetime_indexed, parts. rewrite !Forall_cons, Ho, Ht, Hs, Hres.
  by repeat split.
Qed.

(** C8 (as amended).  Plotting a group that has a stored decomposition
    keeps the store of frames, the list of successful groups, the
    decompositions of the other groups, and the values of the four parts
    of the plotted one.  A part whose index is a [DatetimeIndex] keeps its
    index; the index of a part that has another kind of index is replaced,
    in the stored result, by its conversion with [pd.to_datetime].  When
    all four parts have a [DatetimeIndex] the state after plotting is the
    state before. *)
Theorem plot_decomposition_effect {lib : Libraries} (s : State) (group : Key)
    (r : DecomposeResult) :
  results (self s) !! group = Some r →
  let s' := (plot_decomposition group s).2 in
  frames s' = frames s ∧
  successful_groups (self s') = successful_groups (self s) ∧
  (∀ k, k ≠ group → results (self s') !! k = results (self s) !! k) ∧
  (∃ r', results (self s') !! group = Some r' ∧
         Forall (λ part : DecomposeResult → Series,
                   s_values (part r') = s_values (part r) ∧
                   s_index (part r') =
                     (if ix_datetime (s_index (part r)) then s_index (part r)
                      else to_datetime (s_index (part r))))
                parts) ∧
  (datetime_indexed r → s' = s).
Proof.
  intros Hr s'. subst s'. rewrite plot_decomposition_eq, Hr. cbn [snd frames self].
  split; [done|]. split; [done|]. split; [|split].
  - intros k Hk. simpl. by rewrite lookup_insert_ne.
  - exists (ensure_datetime_indexes r). simpl. rewrite lookup_insert_eq.
    split; [done|]. unfold parts.
    repeat (apply Forall_cons; split;
            [cbn [ensure_datetime_indexes observed trend seasonal resid];
             split; apply ensure_datetime_index_spec|]).
    apply Forall_nil_2.
  - unfold datetime_indexed, parts. rewrite !Forall_cons.
    intros (Ho & Ht & Hs & Hres & _).
    assert (ensure_datetime_indexes r = r) as ->.
    { unfold ensure_datetime_indexes.
      rewrite !ensure_datetime_index_id by done. by destruct r. }
    rewrite insert_id by done. by destruct s as [fs []].
Qed.

Lemma plot_decomposition_effect_witness :
  ∃ r, results (self gap_state) !! KStr "A" = Some r ∧
       frames (@plot_decomposition plain_libraries "A" gap_state).2 = frames gap_state.
Proof.
  eexists.
  assert (results (self gap_state) !! KStr "A" = Some _) as Hr
    by (vm_compute; reflexivity).
  split; [exact Hr|].
  exact (proj1 (@plot_decomposition_effect plain_libraries gap_state "A" _ Hr)).
Defined.

(** C8, as the specification words it, fails for a table whose index is
    text: plotting replaces the index of the stored parts. *)
Lemma plot_pure_as_specified_fails :
  (ix_datetime ∘ s_index ∘ observed)
    <$> results (self text_index_state) !! KStr "SP" = Some false ∧
  (ix_datetime ∘ s_index ∘ observed)
    <$> results (self (@plot_decomposition plain_libraries "SP" text_index_state).2)
        !! KStr "SP" = Some true ∧
  ¬ @plot_pure_as_specified plain_libraries "SP" text_index_state.
Proof.
  split; [by vm_compute|]. split; [by vm_compute|].
  unfold plot_pure_as_specified. intros Hpure.
  apply (f_equal (λ s, (ix_datetime ∘ s_index ∘ observed)
                         <$> results (self s) !! KStr "SP")) in Hpure.
  vm_compute in Hpure. discriminate Hpure.
Qed.

(** * Further properties of the class *)

(** ** What [decompose_series] keeps *)

Section Keeps.
Context {lib : Libraries}.

(** [analysed] reads only the three settings of the instance: two
    instances with the same settings get the same decompositions stored
    and the same ending. *)
Lemma analysed_same_settings (d : DataFrame) (a a' : TimeSeriesAnalysis) :
  groupby_col a' = groupby_col a → value_col a' = value_col a →
  period a' = period a →
  ∃ rs, NoDup (rs.*1) ∧ rs.*1 `sublist_of` group_keys d (groupby_col a) ∧
        analysed d a = ((analysed d a).1, store_all rs a) ∧
        analysed d a' = ((analysed d a).1, store_all rs a').
Proof.
  intros Hg Hv Hp. unfold analysed. rewrite Hg, Hv, Hp.
  assert (∀ ks, NoDup (([] : list (Key * DecomposeResult)).*1) ∧
                ([] : list (Key * DecomposeResult)).*1 `sublist_of` ks) as Hnil.
  { intros ks. split; [constructor|apply sublist_nil_l]. }
  destruct (grouper d (groupby_col a)) as [how|e].
  - destruct (decide (value_col a ∈ df_columns d)).
    + eexists. split; [|split; [apply recorded_sublist|done]].
      apply (sublist_NoDup _ (group_keys d (groupby_col a)));
        [apply NoDup_group_keys|apply recorded_sublist].
    + exists []. destruct (Hnil (group_keys d (groupby_col a))) as [? ?].
      by destruct (group_keys d (groupby_col a)).
  - exists []. by destruct (Hnil (group_keys d (groupby_col a))) as [? ?].
Qed.

Lemma store_all_twice (rs : list (Key * DecomposeResult)) (a : TimeSeriesAnalysis) :
  NoDup (rs.*1) →
  results (store_all rs (store_all rs a)) = results (store_all rs a).
Proof.
  intros Hnd. apply map_eq. intros k. apply option_eq. intros r.
  rewrite (store_all_lookup rs (store_all rs a)) by done.
  rewrite (store_all_lookup rs a) by done. tauto.
Qed.

End Keeps.

(** X1.  [decompose_series] never takes anything back: in any state of an
    instance, the list of successful groups after the call starts with the
    list before it, every group that had a decomposition still has one, and
    the settings [groupby_col], [value_col] and [period] are unchanged. *)
Theorem decompose_series_monotone {lib : Libraries} (s : State) :
  let s' := (decompose_series s).2 in
  successful_groups (self s) `prefix_of` successful_groups (self s') ∧
  dom (results (self s)) ⊆ dom (results (self s')) ∧
  groupby_col (self s') = groupby_col (self s) ∧
  value_col (self s') = value_col (self s) ∧
  period (self s') = period (self s).
Proof.
  intros s'. subst s'. destruct (frames s !! df (self s)) as [d|] eqn:Hd.
  - destruct (decompose_series_eq s d Hd) as [ext ->]. cbn [snd self].
    destruct (analysed_successful d (self s)) as (rs & -> & _).
    split; [rewrite store_all_successful; by apply prefix_app_r|].
    split; [|apply store_all_fields].
    intros k. rewrite !elem_of_dom, store_all_is_Some. tauto.
  - by rewrite decompose_series_unbound.
Qed.

(** X2.  A second call of [decompose_series] on the same instance, with
    the table unchanged, ends as the first call did and stores the same
    decompositions under the same keys, but appends the successful groups
    a second time: the list is then the list of the first call twice. *)
Theorem decompose_series_second_call {lib : Libraries} (store : list DataFrame)
    (table : nat) (g v : string) (p : Z) :
  let first := decompose store table g v p in
  let second := decompose_series first.2 in
  second.1 = first.1 ∧
  results (self second.2) = results (self first.2) ∧
  successful_groups (self second.2) =
    successful_groups (self first.2) ++ successful_groups (self first.2).
Proof.
  intros first second. subst second first.
  destruct (store !! table) as [d|] eqn:Hd.
  - destruct (decompose_eq store table d g v p Hd) as [ext ->]. cbn [fst snd].
    destruct (analysed_same_settings d (init table g v p)
                (analysed d (init table g v p)).2) as (rs & Hnd & _ & H1 & H2);
      try (destruct (analysed_successful d (init table g v p)) as (rs' & -> & _);
           apply store_all_fields).
    assert (df (analysed d (init table g v p)).2 = table) as Hdf.
    { destruct (analysed_successful d (init table g v p)) as (rs' & -> & _).
      apply store_all_fields. }
    edestruct (decompose_series_eq
                 {| frames := store ++ ext; self := (analysed d (init table g v p)).2 |} d)
      as [ext' ->].
    { cbn [frames self]. rewrite Hdf. by apply lookup_app_l_Some. }
    cbn [fst snd self]. rewrite H2. cbn [fst snd]. rewrite H1. cbn [fst snd].
    split; [done|]. split; [by apply store_all_twice|].
    rewrite !store_all_successful. simpl. done.
  - rewrite (decompose_unbound store) by done. cbn [fst snd].
    rewrite decompose_series_unbound by done. done.
Qed.

(** ** Where a run stops *)



(** ** Tables that are too small *)

Lemma group_series_length (d : DataFrame) (g v : string) (k : Key) :
  (length (s_values (group_series d g v k)) ≤ length (df_rows d))%nat.
Proof.
  unfold group_series, series_of, clean_rows, group_frame, group_rows.
  cbn [s_values df_rows]. rewrite length_fmap.
  etrans; [apply length_filter|apply length_filter].
Qed.

(** X4.  A table with fewer than [2 * period] rows gives, for a positive
    period, no decomposition at all, and that is not an error: the run
    ends normally with an empty dict and an empty list.  An empty table is
    the extreme case. *)
Theorem decompose_too_few_rows {lib : Libraries} (store : list DataFrame)
    (table : nat) (d : DataFrame) (g v : string) (p : Z) :
  store !! table = Some d → groupable d g → v ∈ df_columns d → 0 < p →
  Z.of_nat (length (df_rows d)) < 2 * p →
  (decompose store table g v p).1 = Ok tt ∧
  results (self (decompose store table g v p).2) = ∅ ∧
  successful_groups (self (decompose store table g v p).2) = [].
Proof.
  intros Hd Hg Hv Hp Hrows.
  destruct (decompose_positive store table d g v p Hd Hg Hv Hp) as (Hok & Hsucc & Hres).
  assert (∀ k, ¬ decomposable (group_series d g v k) p) as Hnone.
  { intros k [Hshort _]. apply Hshort. unfold short, nobs.
    pose proof (group_series_length d g v k). lia. }
  split; [done|]. split.
  - apply map_empty. intros k. apply eq_None_not_Some. intros [r Hr].
    apply Hres in Hr as [_ Hr]. apply (Hnone k).
    by apply (seasonal_decompose_observed _ _ r Hp).
  - rewrite Hsucc. clear Hsucc Hres. induction (group_keys d g) as [|k ks IH].
    + apply filter_nil.
    + by rewrite filter_cons, decide_False by apply Hnone.
Qed.

Lemma decompose_too_few_rows_witness :
  [sp_rj_table] !! 0%nat = Some sp_rj_table ∧
  (@decompose plain_libraries [sp_rj_table] 0 "UF" "QTD_ADESAO" 12).1 = Ok tt.
Proof.
  split; [reflexivity|].
  refine (proj1 (@decompose_too_few_rows plain_libraries [sp_rj_table] 0%nat
                   sp_rj_table "UF" "QTD_ADESAO" 12 eq_refl _ _ _ _)).
  - by_decide.
  - by_decide.
  - lia.
  - by vm_compute.
Defined.

(** ** What the analysis depends on *)

Lemma Forall2_filter_agree {A} (R : A → A → Prop) (P Q : A → Prop)
    `{!∀ x, Decision (P x), !∀ x, Decision (Q x)} (l1 l2 : list A) :
  (∀ x y, R x y → (P x ↔ Q y)) →
  Forall2 R l1 l2 → Forall2 R (filter P l1) (filter Q l2).
Proof.
  intros HP. induction 1 as [|x y l1 l2 Hxy _ IH]; [constructor|].
  rewrite !filter_cons. destruct (decide (P x)) as [Hx|Hx].
  - rewrite decide_True by (by apply (HP x y)). by constructor.
  - rewrite decide_False; [done|]. intros Hy. by apply Hx, (HP x y).
Qed.

Lemma Forall2_fmap_agree {A B} (R : A → A → Prop) (f : A → B) (l1 l2 : list A) :
  (∀ x y, R x y → f x = f y) → Forall2 R l1 l2 → f <$> l1 = f <$> l2.
Proof.
  intros Hf. induction 1 as [|x y l1 l2 Hxy _ IH]; [done|].
  rewrite !fmap_cons, IH. f_equal. by apply Hf.
Qed.

Lemma row_key_agree (d1 d2 : DataFrame) (g v : string) (r1 r2 : Row) :
  grouper d1 g = grouper d2 g → rows_agree g v r1 r2 →
  row_key d1 g r1 = row_key d2 g r2.
Proof. intros Hhow (Hl & Hg & _). unfold row_key. by rewrite Hhow, Hl, Hg. Qed.

Lemma grouper_agree (d1 d2 : DataFrame) (g : string) :
  df_index_name d1 = df_index_name d2 →
  (g ∈ df_columns d1 ↔ g ∈ df_columns d2) →
  grouper d1 g = grouper d2 g.
Proof.
  intros Hix Hg. unfold grouper. rewrite Hix.
  destruct (decide (g ∈ df_columns d1)) as [H1|H1];
    destruct (decide (g ∈ df_columns d2)) as [H2|H2]; tauto.
Qed.

Lemma group_keys_agree (d1 d2 : DataFrame) (g v : string) :
  grouper d1 g = grouper d2 g →
  Forall2 (rows_agree g v) (df_rows d1) (df_rows d2) →
  group_keys d1 g = group_keys d2 g.
Proof.
  intros Hhow Hrows. unfold group_keys, first_seen. do 2 f_equal.
  apply list_omap_ext. eapply Forall2_impl; [exact Hrows|].
  intros r1 r2 Hr. by apply (row_key_agree d1 d2 g v).
Qed.

Lemma group_series_agree (d1 d2 : DataFrame) (g v : string) (k : Key) :
  df_datetime d1 = df_datetime d2 →
  Forall2 (rows_agree g v) (group_rows d1 g k) (group_rows d2 g k) →
  group_series d1 g v k = group_series d2 g v k.
Proof.
  intros Hdt Hrows. unfold group_series, series_of, clean_rows.
  cbn [group_frame df_datetime df_rows].
  assert (Forall2 (rows_agree g v)
            (filter (λ r, isna (cell r v) = false) (group_rows d1 g k))
            (filter (λ r, isna (cell r v) = false) (group_rows d2 g k))) as Hclean.
  { apply Forall2_filter_agree; [|done]. intros r1 r2 (_ & _ & Hv). by rewrite Hv. }
  rewrite Hdt. f_equal; [f_equal|].
  - apply (Forall2_fmap_agree (rows_agree g v)); [|done]. by intros r1 r2 (? & _).
  - apply (Forall2_fmap_agree (rows_agree g v)); [|done]. by intros r1 r2 (_ & _ & ?).
Qed.

(** X5.  Columns other than the grouping column and the value column are
    ignored.  Two tables with the same kind of index and the same index
    name whose rows agree, one by one, on the index label and on the cells
    of these two columns, and which both have or both lack each of the two
    columns, give the same ending and the same instance. *)
Theorem decompose_ignores_other_columns {lib : Libraries}
    (store1 store2 : list DataFrame) (table : nat) (d1 d2 : DataFrame)
    (g v : string) (p : Z) :
  store1 !! table = Some d1 → store2 !! table = Some d2 →
  df_datetime d1 = df_datetime d2 →
  df_index_name d1 = df_index_name d2 →
  (g ∈ df_columns d1 ↔ g ∈ df_columns d2) →
  (v ∈ df_columns d1 ↔ v ∈ df_columns d2) →
  Forall2 (rows_agree g v) (df_rows d1) (df_rows d2) →
  (decompose store1 table g v p).1 = (decompose store2 table g v p).1 ∧
  self (decompose store1 table g v p).2 = self (decompose store2 table g v p).2.
Proof.
  intros Hd1 Hd2 Hdt Hix Hg Hv Hrows.
  pose proof (grouper_agree d1 d2 g Hix Hg) as Hhow.
  destruct (decompose_eq store1 table d1 g v p Hd1) as [ext1 ->].
  destruct (decompose_eq store2 table d2 g v p Hd2) as [ext2 ->].
  cbn [fst snd self].
  assert (analysed d1 (init table g v p) = analysed d2 (init table g v p)) as ->; [|done].
  unfold analysed. cbn [init groupby_col value_col period].
  rewrite (group_keys_agree d1 d2 g v Hhow Hrows).
  assert (outcomes d1 g v p = outcomes d2 g v p) as Houts.
  { unfold outcomes, outcomes_of. rewrite (group_keys_agree d1 d2 g v Hhow Hrows).
    apply list_fmap_ext. intros _ k _. f_equal. f_equal.
    apply group_series_agree; [done|]. unfold group_rows.
    apply Forall2_filter_agree; [|done]. intros r1 r2 Hr.
    by rewrite (row_key_agree d1 d2 g v r1 r2 Hhow Hr). }
  rewrite Houts, Hhow.
  destruct (grouper d2 g) as [how|e]; [|done].
  destruct (decide (v ∈ df_columns d1)) as [H3|H3];
    destruct (decide (v ∈ df_columns d2)) as [H4|H4]; try tauto; done.
Qed.

Lemma decompose_ignores_other_columns_witness :
  [sp_rj_table] !! 0%nat = Some sp_rj_table ∧
  [sp_rj_area_table] !! 0%nat = Some sp_rj_area_table ∧
  Forall2 (rows_agree "UF" "QTD_ADESAO")
    (df_rows sp_rj_table) (df_rows sp_rj_area_table) ∧
  self (@decompose plain_libraries [sp_rj_table] 0 "UF" "QTD_ADESAO" 1).2 =
  self (@decompose plain_libraries [sp_rj_area_table] 0 "UF" "QTD_ADESAO" 1).2.
Proof.
  assert (Forall2 (rows_agree "UF" "QTD_ADESAO")
            (df_rows sp_rj_table) (df_rows sp_rj_area_table)) as Hrows.
  { repeat first [apply Forall2_nil_2 | apply Forall2_cons_2; [by repeat split|]]. }
  split; [reflexivity|]. split; [reflexivity|]. split; [exact Hrows|].
  refine (proj2 (@decompose_ignores_other_columns plain_libraries [sp_rj_table]
                   [sp_rj_area_table] 0%nat sp_rj_table sp_rj_area_table
                   "UF" "QTD_ADESAO" 1 eq_refl eq_refl eq_refl eq_refl _ _ Hrows)).
  - split; intros _; by_decide.
  - split; intros _; by_decide.
Defined.

(** X6.  The decomposition of a group depends on the rows of that group
    only: two tables with the same kind of index and the same rows for
    group [k] (whatever their other rows and groups) give, for a positive
    period, the same result for [k]. *)
Theorem decompose_group_independent {lib : Libraries}
    (store1 store2 : list DataFrame) (table1 table2 : nat) (d1 d2 : DataFrame)
    (g v : string) (p : Z) (k : Key) :
  store1 !! table1 = Some d1 → store2 !! table2 = Some d2 →
  groupable d1 g → v ∈ df_columns d1 →
  groupable d2 g → v ∈ df_columns d2 → 0 < p →
  df_datetime d1 = df_datetime d2 →
  group_rows d1 g k = group_rows d2 g k →
  results (self (decompose store1 table1 g v p).2) !! k =
  results (self (decompose store2 table2 g v p).2) !! k.
Proof.
  intros Hd1 Hd2 Hg1 Hv1 Hg2 Hv2 Hp Hdt Hrows.
  destruct (decompose_positive store1 table1 d1 g v p Hd1 Hg1 Hv1 Hp) as (_ & _ & H1).
  destruct (decompose_positive store2 table2 d2 g v p Hd2 Hg2 Hv2 Hp) as (_ & _ & H2).
  apply option_eq. intros r. rewrite H1, H2.
  assert (group_series d1 g v k = group_series d2 g v k) as ->.
  { unfold group_series, series_of, group_frame. cbn [df_rows df_datetime].
    by rewrite Hrows, Hdt. }
  assert (∀ d, k ∈ group_keys d g ↔ ∃ r, r ∈ group_rows d g k) as Hkeys.
  { intros d. rewrite elem_of_group_keys. unfold group_rows.
    split; intros [r0 Hr]; exists r0.
    - destruct Hr. by apply list_elem_of_filter.
    - by apply list_elem_of_filter in Hr as [? ?]. }
  by rewrite !Hkeys, Hrows.
Qed.

Lemma decompose_group_independent_witness :
  results (self (@decompose plain_libraries [sp_rj_table] 0 "UF" "QTD_ADESAO" 1).2)
    !! KStr "SP" =
  results (self (@decompose plain_libraries [inf_table] 0 "UF" "QTD_ADESAO" 1).2)
    !! KStr "SP".
Proof.
  refine (@decompose_group_independent plain_libraries [sp_rj_table] [inf_table]
            0%nat 0%nat sp_rj_table inf_table "UF" "QTD_ADESAO" 1 "SP"
            eq_refl eq_refl _ _ _ _ _ eq_refl _).
  - by_decide.
  - by_decide.
  - by_decide.
  - by_decide.
  - lia.
  - by vm_compute.
Defined.

(** ** Alignment *)

Lemma decompose_part_indexes {lib : Libraries} (store : list DataFrame) (table : nat)
    (d : DataFrame) (g v : string) (p : Z) (k : Key) (r : DecomposeResult) :
  store !! table = Some d → 0 < p →
  results (self (decompose store table g v p).2) !! k = Some r →
  observed r = group_series d g v k ∧
  Forall (λ part : DecomposeResult → Series,
            s_index (part r) = s_index (group_series d g v k)) parts.
Proof.
  intros Hd Hp Hr.
  destruct (decompose_result store table d g v p k r Hd Hr) as [_ Hsd].
  destruct (seasonal_decompose_positive (group_series d g v k) p Hp)
    as [(_ & r' & Hr' & Ho & Ht & Hs & Hres)|[_ Hr']]; [|congruence].
  rewrite Hsd in Hr'. injection Hr' as <-. split; [done|].
  unfold parts. rewrite !Forall_cons, Ho, Ht, Hs, Hres. by repeat split.
Qed.

(** X7.  For a positive period, every part of a stored decomposition
    (observed, trend, seasonal, residual) has the index of the non-missing
    observations of its group: the same kind of index as the table, and
    labels that are a subsequence of the labels of the table. *)
Theorem decompose_alignment {lib : Libraries} (store : list DataFrame) (table : nat)
    (d : DataFrame) (g v : string) (p : Z) (k : Key) (r : DecomposeResult) :
  store !! table = Some d → 0 < p →
  results (self (decompose store table g v p).2) !! k = Some r →
  Forall (λ part : DecomposeResult → Series,
            ix_datetime (s_index (part r)) = df_datetime d ∧
            ix_labels (s_index (part r)) =
              r_label <$> clean_rows v (group_rows d g k) ∧
            ix_labels (s_index (part r)) `sublist_of` (r_label <$> df_rows d))
         parts.
Proof.
  intros Hd Hp Hr.
  destruct (decompose_part_indexes store table d g v p k r Hd Hp Hr) as [_ Hix].
  assert (ix_labels (s_index (group_series d g v k)) `sublist_of`
            (r_label <$> df_rows d)) as Hsub.
  { unfold group_series, series_of, clean_rows, group_rows.
    cbn [s_index ix_labels group_frame df_rows]. apply fmap_sublist.
    etrans; apply sublist_filter. }
  eapply Forall_impl; [exact Hix|]. intros part Hpart. cbn beta in Hpart.
  rewrite Hpart. by repeat split.
Qed.

Lemma decompose_alignment_witness :
  ∃ r, [gap_table] !! 0%nat = Some gap_table ∧ 0 < 12 ∧
       results (self (@decompose plain_libraries [gap_table] 0 "UF" "QTD_ADESAO" 12).2)
         !! KStr "A" = Some r ∧
       ix_datetime (s_index (observed r)) = df_datetime gap_table.
Proof.
  eexists.
  assert (results (self (@decompose plain_libraries [gap_table] 0 "UF"
                           "QTD_ADESAO" 12).2) !! KStr "A" = Some _) as Hr
    by (vm_compute; reflexivity).
  assert (0 < 12) as Hp by lia.
  split; [reflexivity|]. split; [exact Hp|]. split; [exact Hr|].
  pose proof (@decompose_alignment plain_libraries [gap_table] 0%nat gap_table
                "UF" "QTD_ADESAO" 12 "A" _ eq_refl Hp Hr) as Hall.
  apply Forall_cons in Hall as [(Hdt & _) _]. exact Hdt.
Defined.

(** ** Plotting *)

Lemma ensure_datetime_indexes_datetime {lib : Libraries} (r : DecomposeResult) :
  datetime_indexed (ensure_datetime_indexes r).
Proof.
  unfold datetime_indexed, parts. rewrite !Forall_cons.
  cbn [ensure_datetime_indexes observed trend seasonal resid].
  repeat split; first [apply ensure_datetime_index_spec|done].
Qed.

Lemma ensure_datetime_indexes_id {lib : Libraries} (r : DecomposeResult) :
  datetime_indexed r → ensure_datetime_indexes r = r.
Proof.
  unfold datetime_indexed, parts. rewrite !Forall_cons.
  intros (Ho & Ht & Hs & Hres & _). unfold ensure_datetime_indexes.
  rewrite !ensure_datetime_index_id by done. by destruct r.
Qed.

(** X8.  Plotting a group that has a decomposition shows a chart, and the
    chart is drawn from the stored decomposition as the call leaves it:
    after the call every one of its four parts has a [DatetimeIndex]. *)
Theorem plot_decomposition_ensures_datetime {lib : Libraries} (s : State)
    (group : Key) (r : DecomposeResult) :
  results (self s) !! group = Some r →
  ∃ r', (plot_decomposition group s).1 = Ok (plotly_chart (figure r')) ∧
        results (self (plot_decomposition group s).2) !! group = Some r' ∧
        datetime_indexed r'.
Proof.
  intros Hr. rewrite plot_decomposition_eq, Hr.
  exists (ensure_datetime_indexes r). split; [done|]. split.
  - simpl. by rewrite lookup_insert_eq.
  - apply ensure_datetime_indexes_datetime.
Qed.

Lemma plot_decomposition_ensures_datetime_witness :
  ∃ r r', results (self text_index_state) !! KStr "SP" = Some r ∧
          results (self (@plot_decomposition plain_libraries "SP" text_index_state).2)
            !! KStr "SP" = Some r' ∧
          datetime_indexed r'.
Proof.
  eexists.
  assert (results (self text_index_state) !! KStr "SP" = Some _) as Hr
    by (vm_compute; reflexivity).
  destruct (@plot_decomposition_ensures_datetime plain_libraries text_index_state
              "SP" _ Hr) as (r' & _ & Hr' & Hdt).
  exists r'. split; [exact Hr|]. split; [exact Hr'|exact Hdt].
Defined.

(** X9.  Plotting is idempotent: plotting a group again, in the state the
    first plot left, shows the same thing (the same chart, or the same
    warning) and leaves that state as it is. *)
Theorem plot_decomposition_idempotent {lib : Libraries} (s : State) (group : Key) :
  plot_decomposition group (plot_decomposition group s).2 =
  ((plot_decomposition group s).1, (plot_decomposition group s).2).
Proof.
  rewrite (plot_decomposition_eq group s).
  destruct (results (self s) !! group) as [r|] eqn:Hr; cbn [fst snd].
  - rewrite plot_decomposition_eq. cbn [self results]. rewrite lookup_insert_eq.
    rewrite (ensure_datetime_indexes_id (ensure_datetime_indexes r))
      by apply ensure_datetime_indexes_datetime.
    cbn [frames self df groupby_col value_col period successful_groups].
    by rewrite insert_insert_eq.
  - by rewrite plot_decomposition_eq, Hr.
Qed.

(** X10.  In every state an instance can be in, plotting a group of the
    list of successful groups never shows the warning and never raises:
    it shows the chart of the decomposition stored for that group. *)
Theorem plot_decomposition_successful {lib : Libraries} (s : State) (group : Key) :
  reachable s → group ∈ successful_groups (self s) →
  ∃ r, results (self s) !! group = Some r ∧
       (plot_decomposition group s).1 =
         Ok (plotly_chart (figure (ensure_datetime_indexes r))).
Proof.
  intros Hs Hgroup. apply (reachable_consistent s Hs) in Hgroup as [r Hr].
  exists r. split; [done|]. by rewrite plot_decomposition_eq, Hr.
Qed.

Lemma plot_decomposition_successful_witness :
  ∃ r, @reachable plain_libraries gap_state ∧
       KStr "A" ∈ successful_groups (self gap_state) ∧
       results (self gap_state) !! KStr "A" = Some r.
Proof.
  assert (@reachable plain_libraries gap_state) as Hs.
  { apply reach_decompose_series, reach_init. }
  assert (KStr "A" ∈ successful_groups (self gap_state)) as HA by by_decide.
  destruct (@plot_decomposition_successful plain_libraries gap_state "A" Hs HA)
    as (r & Hr & _).
  exists r. split; [exact Hs|]. split; [exact HA|exact Hr].
Defined.

(** X11.  From the table to the chart.  For a table with a
    [DatetimeIndex] and a positive period, plotting a successful group
    after [decompose] leaves the state unchanged and shows four traces, in
    the rows 1 to 4.  All four have as x axis the index labels of the rows
    of the group whose value is not missing, in the order of the table, and
    the first one has their values as y. *)
Theorem decompose_then_plot {lib : Libraries} (store : list DataFrame) (table : nat)
    (d : DataFrame) (g v : string) (p : Z) (k : Key) :
  store !! table = Some d → df_datetime d = true → 0 < p →
  k ∈ successful_groups (self (decompose store table g v p).2) →
  ∃ fig,
    plot_decomposition k (decompose store table g v p).2 =
      (Ok (plotly_chart fig), (decompose store table g v p).2) ∧
    sc_row <$> fig = [1; 2; 3; 4] ∧
    Forall (λ t, sc_x t = r_label <$> clean_rows v (group_rows d g k)) fig ∧
    sc_y <$> fig !! 0%nat = Some ((λ r, cell r v) <$> clean_rows v (group_rows d g k)).
Proof.
  intros Hd Hdt Hp Hk.
  assert (reachable (decompose store table g v p).2) as Hreach.
  { apply reach_decompose_series, reach_init. }
  apply (reachable_consistent _ Hreach) in Hk as [r Hr].
  pose proof (decompose_datetime_indexed store table d g v p k r Hd Hdt Hp Hr) as Hix.
  destruct (decompose_part_indexes store table d g v p k r Hd Hp Hr) as [Hobs Hal].
  exists (figure r). split; [|split; [done|split]].
  - rewrite plot_decomposition_eq, Hr, (ensure_datetime_indexes_id r Hix).
    rewrite insert_id by done. f_equal.
    by destruct (decompose store table g v p).2 as [fs []].
  - unfold parts in Hal. rewrite !Forall_cons in Hal.
    destruct Hal as (Ho & Ht & Hs & Hres & _).
    unfold figure, scatter. rewrite !Forall_cons. cbn [sc_x].
    rewrite Ho, Ht, Hs, Hres. by repeat split.
  - unfold figure, scatter. cbn. by rewrite Hobs.
Qed.

Lemma decompose_then_plot_witness :
  ∃ fig, [gap_table] !! 0%nat = Some gap_table ∧ df_datetime gap_table = true ∧
         0 < 12 ∧
         KStr "A" ∈ successful_groups
                 (self (@decompose plain_libraries [gap_table] 0 "UF" "QTD_ADESAO" 12).2) ∧
         sc_row <$> fig = [1; 2; 3; 4].
Proof.
  assert (0 < 12) as Hp by lia.
  assert (KStr "A" ∈ successful_groups
                  (self (@decompose plain_libraries [gap_table] 0 "UF"
                           "QTD_ADESAO" 12).2)) as HA by by_decide.
  destruct (@decompose_then_plot plain_libraries [gap_table] 0%nat gap_table
              "UF" "QTD_ADESAO" 12 "A" eq_refl eq_refl Hp HA) as (fig & _ & Hrows & _).
  exists fig. split; [reflexivity|]. split; [reflexivity|]. split; [exact Hp|].
  split; [exact HA|exact Hrows].
Defined.

(** ** [load_data] *)

Section Loaded.
Context {dates : DateReader}.

Lemma set_datetime_index_cell (col c : string) (d : DataFrame) :
  c ≠ col →
  (λ r, cell r c) <$> df_rows (set_datetime_index col d) =
  (λ r, cell r c) <$> df_rows d.
Proof.
  intros Hc. unfold set_datetime_index. cbn [df_rows].
  rewrite <- list_fmap_compose. apply list_fmap_ext. intros _ r _.
  unfold compose, cell. cbn [r_cells]. by rewrite lookup_delete_ne.
Qed.

End Loaded.

Lemma load_data_datetime {dates : DateReader} (files : gmap string DataFrame)
    (groupby_option : string) (messages : list Message) (d : DataFrame) :
  load_data files groupby_option = Ok (messages, Some d) → df_datetime d = true.
Proof.
  unfold load_data. destruct (LOCAL_PATHS !! groupby_option) as [file_path|]; [|done].
  destruct (files !! file_path) as [raw|]; [|done].
  destruct (decide ("ANO_MES" ∈ df_columns raw)); [|done]. by intros [= <- <-].
Qed.

(** X12.  A frame that [load_data] returns has a [DatetimeIndex] whose
    labels are timestamps or [NaT], never text; it has as many rows as the
    frame read from the file; ["ANO_MES"] is no longer one of its columns;
    every other column of the file is a column of it, with the same
    cells; and no error was shown. *)
Theorem load_data_frame {dates : DateReader} (files : gmap string DataFrame)
    (groupby_option : string) (messages : list Message) (d : DataFrame) :
  load_data files groupby_option = Ok (messages, Some d) →
  ∃ file_path raw,
    LOCAL_PATHS !! groupby_option = Some file_path ∧ files !! file_path = Some raw ∧
    df_datetime d = true ∧
    Forall (λ r, ∀ s, r_label r ≠ Text s) (df_rows d) ∧
    length (df_rows d) = length (df_rows raw) ∧
    ("ANO_MES" ∉ df_columns d) ∧
    (∀ c, c ≠ "ANO_MES" →
          (c ∈ df_columns d ↔ c ∈ df_columns raw) ∧
          (λ r, cell r c) <$> df_rows d = (λ r, cell r c) <$> df_rows raw) ∧
    (∀ text, st_error text ∉ messages).
Proof.
  unfold load_data. destruct (LOCAL_PATHS !! groupby_option) as [file_path|]; [|done].
  destruct (files !! file_path) as [raw|] eqn:Hraw; [|done].
  destruct (decide ("ANO_MES" ∈ df_columns raw)); [|done].
  intros [= <- <-]. exists file_path, raw.
  split; [done|]. split; [done|]. split; [done|]. split; [|split; [|split; [|split]]].
  - unfold set_datetime_index. cbn [df_rows]. apply Forall_fmap, Forall_forall.
    intros r _ s. cbn [r_label compose]. by destruct (read_datetime _ _).
  - unfold set_datetime_index. cbn [df_rows]. by rewrite length_fmap.
  - unfold set_datetime_index. cbn [df_columns]. rewrite list_elem_of_filter.
    by intros [? _].
  - intros c Hc. split; [|by apply set_datetime_index_cell].
    unfold set_datetime_index. cbn [df_columns]. rewrite list_elem_of_filter. tauto.
  - intros text Hin. apply list_elem_of_singleton in Hin. discriminate Hin.
Qed.

(** X13.  [load_data] raises [KeyError] for an option that is not a key of
    [LOCAL_PATHS].  For the two options of the script it never raises: it
    returns [None] exactly when the file does not exist or has no column
    ["ANO_MES"], and exactly then an error is shown. *)
Theorem load_data_outcome {dates : DateReader} (files : gmap string DataFrame)
    (groupby_option : string) :
  (groupby_option ∉ ["Produto"; "Estado (UF)"] →
   load_data files groupby_option = Raise (KeyError groupby_option)) ∧
  (groupby_option ∈ ["Produto"; "Estado (UF)"] →
   ∃ file_path messages loaded,
     LOCAL_PATHS !! groupby_option = Some file_path ∧
     load_data files groupby_option = Ok (messages, loaded) ∧
     (loaded = None ↔
      files !! file_path = None ∨
      ∃ raw, files !! file_path = Some raw ∧ ("ANO_MES" ∉ df_columns raw)) ∧
     (loaded = None ↔ ∃ text, st_error text ∈ messages)).
Proof.
  split.
  - intros Hopt. unfold load_data.
    destruct (LOCAL_PATHS !! groupby_option) as [file_path|] eqn:Hpath; [|done].
    destruct Hopt. unfold LOCAL_PATHS in Hpath.
    apply elem_of_list_to_map_2, elem_of_cons in Hpath as [Heq|Hin].
    + injection Heq as -> _. by left.
    + apply list_elem_of_singleton in Hin. injection Hin as -> _. right. by left.
  - intros Hopt. unfold load_data.
    assert (∃ file_path, LOCAL_PATHS !! groupby_option = Some file_path) as [file_path Hpath].
    { apply elem_of_cons in Hopt as [->|Hopt]; [by eexists|].
      apply list_elem_of_singleton in Hopt as ->. by eexists. }
    rewrite Hpath. exists file_path.
    destruct (files !! file_path) as [raw|] eqn:Hraw.
    + destruct (decide ("ANO_MES" ∈ df_columns raw)) as [Hcol|Hcol].
      * eexists _, _. split; [done|]. split; [done|]. split.
        -- split; [done|]. intros [?|(raw' & [= <-] & ?)]; done.
        -- split; [done|]. intros [text Hin].
           apply list_elem_of_singleton in Hin. discriminate Hin.
      * eexists _, _. split; [done|]. split; [done|]. split.
        -- split; [|done]. intros _. right. by exists raw.
        -- split; [|done]. intros _. eexists. right. by left.
    + eexists _, _. split; [done|]. split; [done|]. split.
      * split; [|done]. intros _. by left.
      * split; [|done]. intros _. eexists. by left.
Qed.

Lemma load_data_frame_witness :
  ∃ messages d,
    @load_data plain_dates uf_files "Estado (UF)" = Ok (messages, Some d) ∧
    df_datetime d = true ∧ length (df_rows d) = 2%nat.
Proof.
  eexists _, _.
  assert (@load_data plain_dates uf_files "Estado (UF)" = Ok (_, Some _)) as Hload
    by (vm_compute; reflexivity).
  split; [exact Hload|].
  destruct (@load_data_frame plain_dates uf_files "Estado (UF)" _ _ Hload)
    as (file_path & raw & _ & _ & Hdt & _).
  split; [exact Hdt|]. by vm_compute.
Defined.

Lemma load_data_outcome_witness :
  "Produto" ∈ ["Produto"; "Estado (UF)"] ∧
  ∃ messages, @load_data plain_dates uf_files "Produto" = Ok (messages, None).
Proof.
  assert ("Produto" ∈ ["Produto"; "Estado (UF)"]) as Hopt by by_decide.
  split; [exact Hopt|].
  destruct (proj2 (@load_data_outcome plain_dates uf_files "Produto") Hopt)
    as (file_path & messages & loaded & Hpath & Hload & Hnone & _).
  exists messages. rewrite Hload. do 2 f_equal. apply Hnone. left.
  vm_compute in Hpath. injection Hpath as <-. by vm_compute.
Defined.

(** ** From the file to the chart *)

(** X14.  For a table that [load_data] returned, the presentation step
    changes nothing: after the analysis of the table (with the period 12 of
    the script), pressing the plot button, for whatever group, leaves the
    session exactly as it was. *)
Theorem loaded_table_plot_pure {dates : DateReader} {lib : Libraries}
    (files : gmap string DataFrame) (groupby_option : string)
    (messages : list Message) (d : DataFrame) (ss : Session) (table : nat)
    (g v : string) (group : Key) :
  load_data files groupby_option = Ok (messages, Some d) →
  ss_frames ss !! table = Some d →
  (plot_button group (execute_analysis table g v ss).2).2 =
  (execute_analysis table g v ss).2.
Proof.
  intros Hload Hd.
  pose proof (load_data_datetime files groupby_option messages d Hload) as Hdt.
  rewrite execute_analysis_eq. cbn [snd]. unfold plot_button. cbn [ss_analysis ss_frames].
  set (run := decompose (ss_frames ss) table g v 12).
  rewrite plot_decomposition_eq. cbn [self frames].
  destruct (results (self run.2) !! group) as [r|] eqn:Hr.
  - assert (datetime_indexed r) as Hix.
    { by apply (decompose_datetime_indexed (ss_frames ss) table d g v 12 group r). }
    rewrite (ensure_datetime_indexes_id r Hix), insert_id by done.
    cbn [snd frames self ss_successful_groups]. f_equal. f_equal.
    by destruct (self run.2).
  - done.
Qed.

Lemma loaded_table_plot_pure_witness :
  ∃ messages d,
    @load_data plain_dates uf_files "Estado (UF)" = Ok (messages, Some d) ∧
    [d] !! 0%nat = Some d ∧
    (@plot_button plain_libraries "SP"
       (@execute_analysis plain_libraries 0 "UF" "QTD_ADESAO"
          {| ss_frames := [d]; ss_analysis := None;
             ss_successful_groups := None |}).2).2 =
    (@execute_analysis plain_libraries 0 "UF" "QTD_ADESAO"
       {| ss_frames := [d]; ss_analysis := None; ss_successful_groups := None |}).2.
Proof.
  eexists _, _.
  assert (@load_data plain_dates uf_files "Estado (UF)" = Ok (_, Some _)) as Hload
    by (vm_compute; reflexivity).
  split; [exact Hload|]. split; [reflexivity|].
  exact (@loaded_table_plot_pure plain_dates plain_libraries uf_files "Estado (UF)"
           _ _ {| ss_frames := [_]; ss_analysis := None;
                  ss_successful_groups := None |} 0%nat "UF" "QTD_ADESAO" "SP"
           Hload eq_refl).
Defined.

(** ** The dicts of the script *)

Section DictLemmas.
Context {K V : Type} `{EqDecision K, AsKey K}.

Lemma dict_setitem_keys (k : K) (v : V) (d : Dict K V) :
  (k ∈ dict_keys d → dict_keys (dict_setitem k v d) = dict_keys d) ∧
  (k ∉ dict_keys d → dict_setitem k v d = d ++ [(k, v)]).
Proof.
  unfold dict_keys. induction d as [|[k' v'] d [IH1 IH2]].
  - split; [by intros ?%elem_of_nil|done].
  - cbn [dict_setitem]. rewrite fmap_cons, elem_of_cons. cbn [fst].
    destruct (decide (k = k')) as [->|Hk].
    + split; [done|]. intros Hn. destruct Hn. by left.
    + rewrite fmap_cons. cbn [fst]. split.
      * intros [?|Hin]; [done|]. by rewrite IH1.
      * intros Hn. rewrite IH2; [done|]. intros ?. apply Hn. by right.
Qed.

Lemma dict_setitem_elem_of (k : K) (v : V) (d : Dict K V) (k' : K) (v' : V) :
  (k', v') ∈ dict_setitem k v d → (k', v') = (k, v) ∨ (k', v') ∈ d.
Proof.
  induction d as [|[k0 v0] d IH]; simpl.
  - intros ?%list_elem_of_singleton. by left.
  - destruct (decide (k = k0)) as [->|Hk]; rewrite !elem_of_cons; [tauto|].
    intros [?|Hin]; [tauto|]. destruct (IH Hin); tauto.
Qed.

Lemma dict_getitem_elem_of (d : Dict K V) (k : K) :
  (∀ v, dict_getitem d k = Ok v → (k, v) ∈ d) ∧
  (k ∈ dict_keys d → ∃ v, dict_getitem d k = Ok v) ∧
  (∀ v, NoDup (dict_keys d) → (k, v) ∈ d → dict_getitem d k = Ok v).
Proof.
  unfold dict_keys. induction d as [|[k' v'] d (IH1 & IH2 & IH3)].
  - split; [done|]. split; [by intros ?%elem_of_nil|by intros v _ ?%elem_of_nil].
  - cbn [dict_getitem]. rewrite fmap_cons. cbn [fst].
    destruct (decide (k = k')) as [->|Hk].
    + split; [intros v [= <-]; by left|]. split; [by eexists|].
      intros v [Hn _]%NoDup_cons [Heq|Hin]%elem_of_cons; [congruence|].
      destruct Hn. apply list_elem_of_fmap. by exists (k', v).
    + split; [intros v Hv; right; by apply IH1|]. split.
      * intros [?|Hin]%elem_of_cons; [done|by apply IH2].
      * intros v [_ Hnd]%NoDup_cons [Heq|Hin]%elem_of_cons; [congruence|].
        by apply IH3.
Qed.

End DictLemmas.

Section DisplayDict.
Context {K : Type} `{EqDecision K, AsKey K} (f : K → K).

Lemma display_dict_snoc (items : list K) (x : K) :
  display_dict f (items ++ [x]) = dict_setitem (f x) x (display_dict f items).
Proof. unfold display_dict. by rewrite foldl_snoc. Qed.

(** Every entry of the dict maps the display name of an item to that
    item. *)
Lemma display_dict_elem_of (items : list K) (k x : K) :
  (k, x) ∈ display_dict f items → x ∈ items ∧ k = f x.
Proof.
  induction items as [|y items IH] using rev_ind.
  - by intros ?%elem_of_nil.
  - rewrite display_dict_snoc, elem_of_app, list_elem_of_singleton.
    intros [[= -> ->]|Hin]%dict_setitem_elem_of; [by auto|].
    destruct (IH Hin). auto.
Qed.

(** When no two items have the same display name, the dict has one entry
    for every item, in the order of the items. *)
Lemma display_dict_injective (items : list K) :
  NoDup (f <$> items) →
  display_dict f items = (λ x, (f x, x)) <$> items.
Proof.
  induction items as [|y items IH] using rev_ind; [done|].
  rewrite fmap_app, NoDup_app. intros (Hnd & Hdisj & _).
  rewrite display_dict_snoc, IH by done.
  rewrite (proj2 (dict_setitem_keys _ _ _)); [by rewrite fmap_app|].
  unfold dict_keys. rewrite <- list_fmap_compose. intros Hin.
  apply (Hdisj _ Hin). by left.
Qed.

End DisplayDict.

(** A mapping with distinct names gives distinct display names to keys
    none of which is itself one of the names. *)
Lemma display_inj (items : list (string * string)) (a b : string) :
  NoDup (items.*2) → a ∉ items.*2 → b ∉ items.*2 →
  display (list_to_map items) a = display (list_to_map items) b → a = b.
Proof.
  intros Hv Hna Hnb Heq.
  assert (∀ k x, (list_to_map items : gmap string string) !! k = Some x →
                 (k, x) ∈ items) as Hlook.
  { intros k x. by apply elem_of_list_to_map_2. }
  assert (∀ k, display (list_to_map items) k = k ∨
               ((k, display (list_to_map items) k) ∈ items)) as Hdisp.
  { intros k. unfold display.
    destruct ((list_to_map items : gmap string string) !! k) eqn:Hl; [|by left].
    right. by apply Hlook. }
  destruct (Hdisp a) as [Ha'|Ha'], (Hdisp b) as [Hb'|Hb'].
  - congruence.
  - destruct Hna. rewrite <- Ha', Heq.
    exact (list_elem_of_fmap_2 snd _ _ Hb').
  - destruct Hnb. rewrite <- Hb', <- Heq.
    exact (list_elem_of_fmap_2 snd _ _ Ha').
  - rewrite Heq in Ha'.
    assert (∀ p q : string * string, p ∈ items → q ∈ items → p.2 = q.2 → p = q) as Hinj.
    { clear -Hv. induction items as [|p0 items IH]; intros p q Hp Hq Hpq.
      - by apply elem_of_nil in Hp.
      - apply NoDup_cons in Hv as [Hn Hv].
        apply elem_of_cons in Hp as [->|Hp]; apply elem_of_cons in Hq as [->|Hq].
        + done.
        + destruct Hn. rewrite Hpq. by apply list_elem_of_fmap_2.
        + destruct Hn. rewrite <- Hpq. by apply list_elem_of_fmap_2.
        + by apply IH. }
    by injection (Hinj _ _ Ha' Hb' eq_refl).
Qed.

Lemma display_distinct (items : list (string * string)) (keys : list string) :
  NoDup (items.*2) → NoDup keys →
  (∀ k, k ∈ keys → k ∉ items.*2) →
  NoDup (display (list_to_map items) <$> keys).
Proof.
  intros Hv Hkeys Hnames. apply NoDup_fmap_2_strong; [|done].
  intros a b Ha Hb. apply display_inj; auto.
Qed.

Lemma display_key_distinct (items : list (string * string)) (keys : list Key) :
  NoDup (items.*2) → NoDup keys →
  (∀ k, k ∈ keys → k ∉ KStr <$> items.*2) →
  NoDup (display_key (list_to_map items) <$> keys).
Proof.
  intros Hv Hkeys Hnames. apply NoDup_fmap_2_strong; [|done].
  intros a b Ha Hb Heq. destruct a as [?|?|?|s], b as [?|?|?|s']; try done.
  cbn [display_key] in Heq. injection Heq as Heq. f_equal.
  apply (display_inj items); [done| | |done].
  - intros Hin. apply (Hnames _ Ha). by apply list_elem_of_fmap_2.
  - intros Hin. apply (Hnames _ Hb). by apply list_elem_of_fmap_2.
Qed.

(** X15.  Whatever entry of the select box is chosen, the group that the
    script plots is one of the successful groups: the translation to
    display names never raises [KeyError] and never makes up a group. *)
Theorem selected_group_successful (groupby_option : string)
    (successful_groups : list Key) (selected : Key) :
  selected ∈ selectbox_options groupby_option successful_groups →
  ∃ group, selected_group groupby_option successful_groups selected = Ok group ∧
           group ∈ successful_groups ∧
           (groupby_option = "Estado (UF)" → selected = display_key uf_mapping group).
Proof.
  unfold selectbox_options, selected_group.
  destruct (decide (groupby_option = "Estado (UF)")) as [Huf|Huf].
  - intros Hsel.
    destruct (proj1 (proj2 (dict_getitem_elem_of (uf_options successful_groups)
                              selected)) Hsel) as [group Hgroup].
    exists group. split; [done|].
    apply dict_getitem_elem_of, display_dict_elem_of in Hgroup as [? ?].
    split; [done|]. by intros _.
  - intros Hsel. exists selected. split; [done|]. split; [done|]. by intros ?.
Qed.

Lemma selected_group_successful_witness :
  KStr "São Paulo" ∈ selectbox_options "Estado (UF)" [KStr "RJ"; KStr "SP"] ∧
  selected_group "Estado (UF)" [KStr "RJ"; KStr "SP"] "São Paulo" = Ok (KStr "SP").
Proof.
  assert (KStr "São Paulo" ∈ selectbox_options "Estado (UF)" [KStr "RJ"; KStr "SP"])
    as Hsel by by_decide.
  split; [exact Hsel|].
  destruct (selected_group_successful "Estado (UF)" [KStr "RJ"; KStr "SP"]
              "São Paulo" Hsel)
    as (group & Hgroup & _).
  rewrite Hgroup. by vm_compute in Hgroup.
Defined.

(** X16.  The select box of the states loses no group: when the
    successful groups are distinct and none of them is itself one of the
    display names of [uf_mapping] (as for two-letter codes), the box offers
    one entry for every group, in the order of the groups, and choosing the
    entry of a group gives back that group. *)
Theorem uf_options_round_trip (successful_groups : list Key) :
  NoDup successful_groups →
  (∀ k, k ∈ successful_groups → k ∉ KStr <$> uf_mapping_items.*2) →
  selectbox_options "Estado (UF)" successful_groups
    = display_key uf_mapping <$> successful_groups ∧
  ∀ group, group ∈ successful_groups →
           selected_group "Estado (UF)" successful_groups (display_key uf_mapping group)
           = Ok group.
Proof.
  intros Hnd Hnames.
  assert (NoDup (display_key uf_mapping <$> successful_groups)) as Hdisp.
  { apply display_key_distinct; [by_decide|done|done]. }
  unfold selectbox_options, selected_group. rewrite !decide_True by done.
  unfold uf_options. rewrite display_dict_injective by done. split.
  - unfold dict_keys. by rewrite <- list_fmap_compose.
  - intros group Hgroup. apply dict_getitem_elem_of.
    + unfold dict_keys. by rewrite <- list_fmap_compose.
    + apply list_elem_of_fmap. by exists group.
Qed.

Lemma uf_options_round_trip_witness :
  NoDup [KStr "RJ"; KStr "SP"] ∧
  selectbox_options "Estado (UF)" [KStr "RJ"; KStr "SP"]
    = [KStr "Rio de Janeiro"; KStr "São Paulo"].
Proof.
  assert (NoDup [KStr "RJ"; KStr "SP"]) as Hnd by by_decide.
  split; [exact Hnd|].
  rewrite (proj1 (uf_options_round_trip [KStr "RJ"; KStr "SP"] Hnd
                    ltac:(intros k Hk; revert k Hk; apply Forall_forall; by_decide))).
  by vm_compute.
Defined.

(** X17.  The choice of the metric loses no column: when the numeric
    columns are distinct and none of them is itself one of the display
    names of [col_mapping], [options] has one entry for every column, in
    the order of the columns, and [options[...]] of the display name of a
    column is that column.  In every case the value column that
    [options] gives for an entry is one of the numeric columns. *)
Theorem options_round_trip (numeric_columns : list string) :
  (∀ selected_display,
     selected_display ∈ dict_keys (options numeric_columns) →
     ∃ value_col, dict_getitem (options numeric_columns) selected_display = Ok value_col ∧
                  value_col ∈ numeric_columns ∧
                  selected_display = display col_mapping value_col) ∧
  (NoDup numeric_columns →
   (∀ c, c ∈ numeric_columns → c ∉ col_mapping_items.*2) →
   dict_keys (options numeric_columns) = display col_mapping <$> numeric_columns ∧
   ∀ c, c ∈ numeric_columns →
        dict_getitem (options numeric_columns) (display col_mapping c) = Ok c).
Proof.
  split.
  - intros selected Hsel.
    destruct (proj1 (proj2 (dict_getitem_elem_of (options numeric_columns) selected))
                Hsel) as [c Hc].
    exists c. split; [done|].
    by apply dict_getitem_elem_of, display_dict_elem_of in Hc as [? ?].
  - intros Hnd Hnames.
    assert (NoDup (display col_mapping <$> numeric_columns)) as Hdisp.
    { apply display_distinct; [by_decide|done|done]. }
    unfold options. rewrite display_dict_injective by done. split.
    + unfold dict_keys. by rewrite <- list_fmap_compose.
    + intros c Hc. apply dict_getitem_elem_of.
      * unfold dict_keys. by rewrite <- list_fmap_compose.
      * apply list_elem_of_fmap. by exists c.
Qed.

Lemma options_round_trip_witness :
  NoDup ["QTD_ADESAO"; "AREA"] ∧
  dict_keys (options ["QTD_ADESAO"; "AREA"])
    = ["Número de Contratos de Adesão"; "AREA"] ∧
  dict_getitem (options ["QTD_ADESAO"; "AREA"]) "Número de Contratos de Adesão"
    = Ok "QTD_ADESAO".
Proof.
  assert (NoDup ["QTD_ADESAO"; "AREA"]) as Hnd by by_decide.
  assert (∀ c, c ∈ ["QTD_ADESAO"; "AREA"] → c ∉ col_mapping_items.*2) as Hnames.
  { apply Forall_forall. by_decide. }
  destruct (proj2 (options_round_trip ["QTD_ADESAO"; "AREA"]) Hnd Hnames)
    as [Hkeys Hget].
  split; [exact Hnd|]. split; [rewrite Hkeys; by vm_compute|].
  apply (Hget "QTD_ADESAO"). by_decide.
Defined.

(** A group that is itself the display name of another group hides it:
    with the groups ["AC"] and ["Acre"] the select box has the one entry
    ["Acre"], which stands for the group ["Acre"]. *)
Example uf_options_collision :
  selectbox_options "Estado (UF)" [KStr "AC"; KStr "Acre"] = [KStr "Acre"] ∧
  selected_group "Estado (UF)" [KStr "AC"; KStr "Acre"] "Acre" = Ok (KStr "Acre").
Proof. split; by vm_compute. Qed.

(** ** The session *)

Section Sessions.
Context {lib : Libraries}.

Lemma plot_button_fields (group : Key) (ss : Session) :
  ss_successful_groups (plot_button group ss).2 = ss_successful_groups ss ∧
  (is_Some (ss_analysis ss) → is_Some (ss_analysis (plot_button group ss).2)) ∧
  (is_Some (ss_analysis ss) →
   ∃ what, (plot_button group ss).1 = Ok (shown what)).
Proof.
  unfold plot_button. destruct (ss_analysis ss) as [a|].
  - rewrite plot_decomposition_eq. cbn [self].
    destruct (results a !! group); cbn [fst snd ss_analysis ss_successful_groups];
      (split; [done|]; split; [by eexists|]; by eexists).
  - split; [done|]. split; by intros [? ?].
Qed.

Lemma plot_section_fields (groupby_option : string) (selected : Key) (pressed : bool)
    (ss : Session) :
  ss_successful_groups (plot_section groupby_option selected pressed ss).2
    = ss_successful_groups ss ∧
  (is_Some (ss_analysis ss) →
   is_Some (ss_analysis (plot_section groupby_option selected pressed ss).2)).
Proof.
  unfold plot_section. destruct (ss_successful_groups ss) as [[|group groups]|] eqn:Hl;
    [done| |done].
  destruct (selected_group _ _ _) as [chosen|e]; [|done].
  destruct pressed; [|done].
  destruct (plot_button_fields chosen ss) as (Hsg & Ha & _).
  destruct (plot_button chosen ss) as [[what|e] ss']; cbn [snd] in *;
    by rewrite Hsg, Hl.
Qed.

(** A session that lists successful groups holds an analysis. *)
Lemma session_reachable_analysis (ss : Session) :
  session_reachable ss →
  is_Some (ss_successful_groups ss) → is_Some (ss_analysis ss).
Proof.
  induction 1 as [store|ss table g v _ _|ss opt sel pressed _ IH|ss store _ IH].
  - by intros [? ?].
  - intros _. rewrite execute_analysis_eq. by eexists.
  - destruct (plot_section_fields opt sel pressed ss) as [-> Ha]. intros Hl.
    by apply Ha, IH.
  - done.
Qed.

End Sessions.

(** X18.  The message that no analysis was found is never shown: in every
    session of the script a list of successful groups comes with an
    analysis, so pressing the plot button for an entry of the select box
    neither raises nor reports a missing analysis; what it shows is the
    chart or the warning of [plot_decomposition]. *)
Theorem plot_section_has_analysis {lib : Libraries} (ss : Session)
    (groupby_option : string) (selected : Key) (groups : list Key) :
  session_reachable ss →
  ss_successful_groups ss = Some groups →
  selected ∈ selectbox_options groupby_option groups →
  ∃ what, (plot_section groupby_option selected true ss).1 = Ok (Some (shown what)).
Proof.
  intros Hss Hl Hsel.
  assert (is_Some (ss_analysis ss)) as Ha.
  { apply (session_reachable_analysis ss Hss). by eexists. }
  assert (∃ chosen, selected_group groupby_option groups selected = Ok chosen)
    as [chosen Hchosen].
  { unfold selectbox_options, selected_group in *.
    destruct (decide (groupby_option = "Estado (UF)")); [|by eexists].
    by apply dict_getitem_elem_of. }
  unfold plot_section. rewrite Hl.
  destruct groups as [|group groups].
  { unfold selectbox_options in Hsel.
    destruct (decide (groupby_option = "Estado (UF)"));
      by apply elem_of_nil in Hsel. }
  rewrite Hchosen.
  destruct (plot_button_fields chosen ss) as (_ & _ & Hshown).
  destruct (Hshown Ha) as [what Hwhat].
  destruct (plot_button chosen ss) as [[out|e] ss']; cbn [fst] in *; [|done].
  exists what. by injection Hwhat as ->.
Qed.

Lemma plot_section_has_analysis_witness :
  ∃ what,
    @session_reachable plain_libraries
      (@execute_analysis plain_libraries 0 "UF" "QTD_ADESAO"
         {| ss_frames := [gap_table]; ss_analysis := None;
            ss_successful_groups := None |}).2 ∧
    ss_successful_groups
      (@execute_analysis plain_libraries 0 "UF" "QTD_ADESAO"
         {| ss_frames := [gap_table]; ss_analysis := None;
            ss_successful_groups := None |}).2 = Some [KStr "A"] ∧
    KStr "A" ∈ selectbox_options "Estado (UF)" [KStr "A"] ∧
    (@plot_section plain_libraries "Estado (UF)" "A" true
       (@execute_analysis plain_libraries 0 "UF" "QTD_ADESAO"
          {| ss_frames := [gap_table]; ss_analysis := None;
             ss_successful_groups := None |}).2).1 = Ok (Some (shown what)).
Proof.
  assert (@session_reachable plain_libraries
            (@execute_analysis plain_libraries 0 "UF" "QTD_ADESAO"
               {| ss_frames := [gap_table]; ss_analysis := None;
                  ss_successful_groups := None |}).2) as Hss.
  { apply session_execute, session_new. }
  assert (ss_successful_groups
            (@execute_analysis plain_libraries 0 "UF" "QTD_ADESAO"
               {| ss_frames := [gap_table]; ss_analysis := None;
                  ss_successful_groups := None |}).2 = Some [KStr "A"]) as Hl
    by (by vm_compute).
  assert (KStr "A" ∈ selectbox_options "Estado (UF)" [KStr "A"]) as Hsel by by_decide.
  destruct (@plot_section_has_analysis plain_libraries _ "Estado (UF)" "A" [KStr "A"]
              Hss Hl Hsel) as [what Hwhat].
  exists what. split; [exact Hss|]. split; [exact Hl|]. split; [exact Hsel|exact Hwhat].
Defined.

(** X19.  After an analysis that ended normally, every entry of the select
    box can be plotted: the session lists exactly the successful groups of
    its analysis, and pressing the plot button for any entry shows the
    chart of the group behind that entry, never the warning. *)
Theorem executed_groups_plot {lib : Libraries} (ss : Session) (table : nat)
    (g v groupby_option : string) (selected : Key) (groups : list Key) :
  (execute_analysis table g v ss).1 = Ok tt →
  ss_successful_groups (execute_analysis table g v ss).2 = Some groups →
  selected ∈ selectbox_options groupby_option groups →
  ∃ a group r,
    ss_analysis (execute_analysis table g v ss).2 = Some a ∧
    successful_groups a = groups ∧
    selected_group groupby_option groups selected = Ok group ∧
    results a !! group = Some r ∧
    (plot_section groupby_option selected true (execute_analysis table g v ss).2).1
      = Ok (Some (shown (plotly_chart (figure (ensure_datetime_indexes r))))).
Proof.
  rewrite execute_analysis_eq. cbn [fst snd ss_successful_groups ss_analysis].
  set (run := decompose (ss_frames ss) table g v 12). intros Hok.
  rewrite Hok. intros [= <-] Hsel.
  assert (consistent (self run.2)) as Hcons.
  { apply consistent_decompose_series, consistent_init. }
  assert (∃ group, selected_group groupby_option (successful_groups (self run.2))
                     selected = Ok group ∧
                   group ∈ successful_groups (self run.2)) as (group & Hgroup & Hin).
  { unfold selectbox_options, selected_group in *.
    destruct (decide (groupby_option = "Estado (UF)")); [|by eexists].
    destruct (proj1 (proj2 (dict_getitem_elem_of _ _)) Hsel) as [group Hgroup].
    exists group. split; [done|].
    by apply dict_getitem_elem_of, display_dict_elem_of in Hgroup as [? ?]. }
  destruct (proj1 (Hcons group) Hin) as [r Hr].
  exists (self run.2), group, r. split; [done|]. split; [done|]. split; [done|].
  split; [done|].
  unfold plot_section. cbn [ss_successful_groups].
  destruct (successful_groups (self run.2)) as [|group0 groups] eqn:Hl;
    [by apply elem_of_nil in Hin|].
  rewrite Hgroup. unfold plot_button. cbn [ss_analysis ss_frames].
  rewrite plot_decomposition_eq. cbn [self]. by rewrite Hr.
Qed.

Lemma executed_groups_plot_witness :
  ∃ a,
    (@execute_analysis plain_libraries 0 "UF" "QTD_ADESAO"
       {| ss_frames := [gap_table]; ss_analysis := None;
          ss_successful_groups := None |}).1 = Ok tt ∧
    KStr "A" ∈ selectbox_options "Estado (UF)" [KStr "A"] ∧
    ss_analysis
      (@execute_analysis plain_libraries 0 "UF" "QTD_ADESAO"
         {| ss_frames := [gap_table]; ss_analysis := None;
            ss_successful_groups := None |}).2 = Some a.
Proof.
  assert ((@execute_analysis plain_libraries 0 "UF" "QTD_ADESAO"
             {| ss_frames := [gap_table]; ss_analysis := None;
                ss_successful_groups := None |}).1 = Ok tt) as Hok by (by vm_compute).
  assert (KStr "A" ∈ selectbox_options "Estado (UF)" [KStr "A"]) as Hsel by by_decide.
  destruct (@executed_groups_plot plain_libraries
              {| ss_frames := [gap_table]; ss_analysis := None;
                 ss_successful_groups := None |} 0%nat "UF" "QTD_ADESAO"
              "Estado (UF)" "A" [KStr "A"] Hok ltac:(by vm_compute) Hsel)
    as (a & _ & _ & Ha & _).
  exists a. split; [exact Hok|]. split; [exact Hsel|exact Ha].
Defined.

(** After a run that raised, the session keeps the list of the run before
    it with the new, empty analysis: an entry of the select box then gets
    the warning. *)
Example stale_groups_after_failed_run :
  let ss1 := (@execute_analysis plain_libraries 0 "UF" "QTD_ADESAO"
                {| ss_frames := [gap_table]; ss_analysis := None;
                   ss_successful_groups := None |}).2 in
  let ss2 := (@execute_analysis plain_libraries 0 "PRODUTO" "QTD_ADESAO" ss1) in
  ss2.1 = Raise (KeyError "PRODUTO") ∧
  ss_successful_groups ss2.2 = Some [KStr "A"] ∧
  (@plot_section plain_libraries "Produto" "A" true ss2.2).1
    = Ok (Some (shown (warning "A"))).
Proof. by vm_compute. Qed.
